(** * AlphaMaths: the generate / extract / verify / feedback loop of app.py

    A shallow embedding of [src/app.py]: Python strings as lists of code
    points, the Lean adapter [verify_lean_file], the fenced-block
    extraction of lines 119-126 and the validation loop of lines 70-165,
    written in a state-and-exception monad over the file system and a
    chronological log of the calls the script makes to the outside. *)

From Stdlib Require Import ZArith NArith List String Ascii Lia Bool DecimalString.
From stdpp Require Import base gmap list.
Import ListNotations.

(** ** Python strings *)

Module PyStr.

(** A Python [str] is a sequence of Unicode code points. *)
Definition str := list N.

(** Literals are written as UTF-8 text and decoded once into code points. *)
Fixpoint utf8 (bs : list N) (need : nat) (acc : N) : str :=
  match bs with
  | [] => []
  | b :: bs' =>
      match need with
      | O =>
          if (b <? 128)%N then b :: utf8 bs' 0 0%N
          else if (b <? 224)%N then utf8 bs' 1 (b - 192)%N
          else if (b <? 240)%N then utf8 bs' 2 (b - 224)%N
          else utf8 bs' 3 (b - 240)%N
      | S n =>
          let acc' := (acc * 64 + (b - 128))%N in
          match n with
          | O => acc' :: utf8 bs' 0 0%N
          | S _ => utf8 bs' n acc'
          end
      end
  end.

Definition lit (s : string) : str :=
  utf8 (List.map N_of_ascii (list_ascii_of_string s)) 0 0%N.
#[global] Arguments lit s%_string.

(** [str(n)] for a non-negative [int], as the f-strings print it. *)
Definition str_of_nat (n : nat) : str :=
  List.map N_of_ascii (list_ascii_of_string (NilEmpty.string_of_uint (Nat.to_uint n))).

(** [a == b] *)
Fixpoint eqb (a b : str) : bool :=
  match a, b with
  | [], [] => true
  | c :: a', d :: b' => (c =? d)%N && eqb a' b'
  | _, _ => false
  end.

(** [if s:] *)
Definition truthy (s : str) : bool :=
  match s with [] => false | _ :: _ => true end.

(** [len(s)] *)
Definition len (s : str) : Z := Z.of_nat (length s).

(** [s.startswith(sub)] *)
Fixpoint startswith (s sub : str) : bool :=
  match sub, s with
  | [], _ => true
  | _ :: _, [] => false
  | c :: sub', d :: s' => (c =? d)%N && startswith s' sub'
  end.

(** Offset of the first occurrence of [sub] in [s]. *)
Fixpoint find_first (s sub : str) : option nat :=
  if startswith s sub then Some O
  else match s with
       | [] => None
       | _ :: s' => option_map S (find_first s' sub)
       end.

(** [sub in s] *)
Definition contains (s sub : str) : bool :=
  match find_first s sub with Some _ => true | None => false end.

(** Index adjustment of [str.find]: a negative start counts from the end. *)
Definition adjust_start (start n : Z) : Z :=
  if (start <? 0)%Z then Z.max 0 (start + n) else start.

(** [s.find(sub, start)]: lowest index at or after [start] where [sub]
    occurs, [-1] when there is none. *)
Definition find (s sub : str) (start : Z) : Z :=
  let st := adjust_start start (len s) in
  if (len s <? st)%Z then (-1)%Z
  else match find_first (drop (Z.to_nat st) s) sub with
       | Some k => (st + Z.of_nat k)%Z
       | None => (-1)%Z
       end.

(** Index adjustment of a slice bound: negative counts from the end, and
    the result is clamped to [0, len]. *)
Definition adjust_bound (i n : Z) : Z :=
  if (i <? 0)%Z then Z.max 0 (i + n) else Z.min i n.

(** [s[a:b]] *)
Definition slice (s : str) (a b : Z) : str :=
  let a' := adjust_bound a (len s) in
  let b' := adjust_bound b (len s) in
  take (Z.to_nat (b' - a')) (drop (Z.to_nat a') s).

(** [c.isspace()] for one code point: the whitespace table of CPython. *)
Definition isspace (c : N) : bool :=
  ((9 <=? c) && (c <=? 13) || (28 <=? c) && (c <=? 32) || (c =? 133) || (c =? 160)
   || (c =? 5760) || (8192 <=? c) && (c <=? 8202) || (c =? 8232) || (c =? 8233)
   || (c =? 8239) || (c =? 8287) || (c =? 12288))%N.

Fixpoint lstrip (s : str) : str :=
  match s with
  | [] => []
  | c :: s' => if isspace c then lstrip s' else s
  end.

Definition rstrip (s : str) : str := rev (lstrip (rev s)).

(** [s.strip()] *)
Definition strip (s : str) : str := lstrip (rstrip s).

End PyStr.
Import PyStr.

(** ** Effects: exceptions, the file system and the log of outside calls *)

(** The part of Python's [Exception] hierarchy the script distinguishes.
    Every exception carries the text [str(e)] gives; a
    [CalledProcessError] also carries the captured standard error. *)
Inductive exn :=
| FileNotFoundError (msg : str)
| CalledProcessError (msg stderr : str)
| APIError (msg : str)
| OtherException (msg : str).

Definition exn_str (e : exn) : str :=
  match e with
  | FileNotFoundError m | CalledProcessError m _ | APIError m | OtherException m => m
  end.

(** Outcome of a call: a value or a raised exception. *)
Inductive Res (A : Type) :=
| Ok (a : A)
| Raise (e : exn).
#[global] Arguments Ok {A} a.
#[global] Arguments Raise {A} e.

(** Streamlit output calls, in the order the page shows them. *)
Inductive st_event :=
| Subheader (body : str)
| Info (body : str)
| Warning (body : str)
| Error (body : str)
| Success (body : str)
| Code (body language : str)
| Spinner (text : str).

(** Everything the button handler does to the outside, chronologically. *)
Inductive event :=
| St (e : st_event)
| OpenAIConfig (api_key api_base : str)
| ChatCompletion (model system user : str)
| TmpCreate (path : str)
| TmpWrite (path text : str)
| SubprocessRun (argv : list str)
| OsRemove (path : str).

(** The local variables of the handler (lines 80-85). *)
Record Locals := mkLocals {
  attempt : nat;
  lean_error_feedback : str;
  generated_proof_code : str;
  is_valid : bool;
  lean_output : str
}.

(** Program state: locals, files on disk (path to content), event log. *)
Record State := mkState {
  vars : Locals;
  fs : gmap str str;
  log : list event
}.

Definition M (A : Type) : Type := State -> Res A * State.

Definition ret {A} (a : A) : M A := fun s => (Ok a, s).

Definition bind {A B} (m : M A) (k : A -> M B) : M B :=
  fun s => match m s with
           | (Ok a, s') => k a s'
           | (Raise e, s') => (Raise e, s')
           end.

Definition raise {A} (e : exn) : M A := fun s => (Raise e, s).

(** [try: body except Exception as e: handler e]; what the body did to the
    state before raising stays done. *)
Definition try_except {A} (body : M A) (handler : exn -> M A) : M A :=
  fun s => match body s with
           | (Ok a, s') => (Ok a, s')
           | (Raise e, s') => handler e s'
           end.

Declare Scope py_scope.
Delimit Scope py_scope with py.
Notation "x <- m ;; k" := (bind m (fun x => k))
  (at level 100, m at next level, right associativity) : py_scope.
Notation "m ;; k" := (bind m (fun _ => k))
  (at level 100, right associativity) : py_scope.
Open Scope py_scope.

Definition get_vars : M Locals := fun s => (Ok (vars s), s).

Definition set_vars (f : Locals -> Locals) : M unit :=
  fun s => (Ok tt, mkState (f (vars s)) (fs s) (log s)).

Definition emit (e : event) : M unit :=
  fun s => (Ok tt, mkState (vars s) (fs s) (log s ++ [e])).

Definition st (e : st_event) : M unit := emit (St e).

(** An external call whose outcome the environment decides. *)
Definition external {A} (e : event) (r : Res A) : M A :=
  fun s => (r, mkState (vars s) (fs s) (log s ++ [e])).

(** [Path(p).exists()] *)
Definition path_exists (p : str) : M bool :=
  fun s => (Ok (bool_decide (is_Some (fs s !! p))), s).

(** [os.remove(p)]: raises [FileNotFoundError] when there is no such file. *)
Definition os_remove (p : str) : M unit :=
  fun s =>
    let lg := log s ++ [OsRemove p] in
    match fs s !! p with
    | Some _ => (Ok tt, mkState (vars s) (delete p (fs s)) lg)
    | None => (Raise (FileNotFoundError p), mkState (vars s) (fs s) lg)
    end.

(** [with tempfile.NamedTemporaryFile(mode="w", delete=False, ...) as f:
       f.write(text); path = f.name]
    The file is created under a name the system picks; as [delete=False],
    leaving the block closes it and keeps it on disk, also when [write]
    raises. *)
Definition named_temporary_file (name : str) (write : Res unit) (text : str) : M str :=
  fun s =>
    let created := mkState (vars s) (<[name := []]> (fs s)) (log s ++ [TmpCreate name]) in
    match write with
    | Ok _ =>
        (Ok name, mkState (vars s) (<[name := text]> (fs created))
                          (log created ++ [TmpWrite name text]))
    | Raise e => (Raise e, created)
    end.

Definition nl : str := [10%N].

(** ** verify_lean_file (lines 15-47) *)

Definition msg_no_file (file_path : str) : str :=
  lit "Erreur: Le fichier " ++ file_path ++ lit " n'existe pas.".
Definition msg_valid : str :=
  Eval vm_compute in lit "✅ La preuve dans le fichier Lean est valide!" ++ nl.
Definition msg_no_lean : str :=
  Eval vm_compute in lit "❌ Erreur: La commande 'lean' n'a pas été trouvée. Assurez-vous que Lean est installé et dans votre PATH.".
Definition msg_errors : str :=
  Eval vm_compute in lit "❌ La preuve contient des erreurs!" ++ nl.
Definition msg_unexpected : str :=
  Eval vm_compute in lit "Erreur inattendue lors de la vérification Lean: ".

(** [subprocess.run(["lean", "--run", file_path], capture_output=True,
    text=True, check=True, encoding='utf-8')]: returns the captured
    standard output on exit code zero, raises [CalledProcessError] on a
    non-zero exit code and [FileNotFoundError] when there is no [lean]
    executable; [proc] is what happens. *)
Definition subprocess_run (proc : Res str) (file_path : str) : M str :=
  external (SubprocessRun [lit "lean"; lit "--run"; file_path]) proc.

Definition verify_lean_file (proc : Res str) (file_path : str) : M (bool * str) :=
  try_except
    (ex <- path_exists file_path ;;
     if negb ex then ret (false, msg_no_file file_path)
     else
       stdout <- subprocess_run proc file_path ;;
       ret (true, msg_valid ++ stdout))
    (fun e =>
       match e with
       | FileNotFoundError _ => ret (false, msg_no_lean)
       | CalledProcessError _ stderr => ret (false, msg_errors ++ stderr)
       | _ => ret (false, msg_unexpected ++ exn_str e)
       end).

(** ** Extraction of the fenced Lean block (lines 119-126) *)

Definition fence_lean : str := Eval vm_compute in lit "```lean".
Definition fence : str := Eval vm_compute in lit "```".

Definition msg_malformed : str :=
  Eval vm_compute in lit "Le code Lean généré ne semble pas être correctement formaté avec des balises ```lean et ```. Tentative d'utilisation du texte brut.".

(** The new value of [generated_proof_code], and whether the [else] branch
    with its warning was taken. *)
Definition extract (generated_proof_code : str) : str * bool :=
  if contains generated_proof_code fence_lean && contains generated_proof_code fence then
    let start_index := (find generated_proof_code fence_lean 0 + len fence_lean)%Z in
    let end_index := find generated_proof_code fence start_index in
    if negb (start_index =? -1)%Z && negb (end_index =? -1)%Z then
      (strip (slice generated_proof_code start_index end_index), false)
    else (generated_proof_code, true)
  else (generated_proof_code, false).

Definition set_attempt (n : nat) (l : Locals) : Locals :=
  mkLocals n (lean_error_feedback l) (generated_proof_code l) (is_valid l) (lean_output l).
Definition set_lean_error_feedback (t : str) (l : Locals) : Locals :=
  mkLocals (attempt l) t (generated_proof_code l) (is_valid l) (lean_output l).
Definition set_generated_proof_code (t : str) (l : Locals) : Locals :=
  mkLocals (attempt l) (lean_error_feedback l) t (is_valid l) (lean_output l).
Definition set_verdict (r : bool * str) (l : Locals) : Locals :=
  mkLocals (attempt l) (lean_error_feedback l) (generated_proof_code l) (fst r) (snd r).

Definition extraction_block : M unit :=
  l <- get_vars ;;
  let '(code, malformed) := extract (generated_proof_code l) in
  set_vars (set_generated_proof_code code) ;;
  if malformed then st (Warning msg_malformed) else ret tt.

(** ** The prompt (lines 93-104) *)

Definition prompt_base (math_problem_input : str) : str :=
  lit "Vous êtes un assistant de preuve mathématique. "
  ++ lit "Générez une démonstration formelle en langage Lean 4 pour la conjecture/problème suivant :" ++ nl ++ nl
  ++ math_problem_input ++ nl ++ nl
  ++ lit "La démonstration doit être complète et valide syntaxiquement en Lean 4. "
  ++ lit "Incluez les imports nécessaires et utilisez des tactiques appropriées. "
  ++ lit "Ne générez que le code Lean, sans explication supplémentaire." ++ nl ++ nl.

Definition feedback_intro : str :=
  Eval vm_compute in
    lit "Les tentatives précédentes ont échoué avec les erreurs Lean suivantes :" ++ nl ++ lit "```" ++ nl.
Definition feedback_outro : str :=
  Eval vm_compute in
    nl ++ lit "```" ++ nl ++ lit "Veuillez corriger ces erreurs et fournir une démonstration valide.".

Definition build_prompt (math_problem_input lean_error_feedback : str) : str :=
  let prompt := prompt_base math_problem_input in
  if truthy lean_error_feedback
  then prompt ++ feedback_intro ++ lean_error_feedback ++ feedback_outro
  else prompt.

(** ** The validation loop (lines 70-165) *)

(** What the outside does during one attempt: the reply of the chat
    endpoint (the content of the first choice, or the exception raised while
    obtaining it), the name picked for the temporary file, whether writing
    it works, and what running Lean does. *)
Record Cycle := mkCycle {
  chat_reply : Res str;
  tmp_name : str;
  tmp_write : Res unit;
  lean_run : Res str
}.

(** The outside, by attempt number. *)
Definition Env := nat -> Cycle.

Inductive flow := Continue | Break.

Inductive status := Succeeded | Failed.

Definition lang_lean : str := Eval vm_compute in lit "lean".
Definition lang_bash : str := Eval vm_compute in lit "bash".

Definition system_message : str :=
  Eval vm_compute in lit "You are a helpful assistant that generates Lean 4 code.".

Section Handler.

Variables openai_api_base openai_api_key openai_model : str.
Variable math_problem_input : str.
Variable max_attempts : nat.
Variable env : Env.

(** The [try] block of one iteration (lines 92-150). *)
Definition attempt_try : M flow :=
  l <- get_vars ;;
  let c := env (attempt l) in
  let prompt := build_prompt math_problem_input (lean_error_feedback l) in
  st (Spinner (lit "Génération de la démonstration par l'IA (Tentative "
               ++ str_of_nat (attempt l) ++ lit ")...")) ;;
  content <- external (ChatCompletion openai_model system_message prompt) (chat_reply c) ;;
  set_vars (set_generated_proof_code content) ;;
  extraction_block ;;
  st (Subheader (lit "Démonstration Générée par l'IA (Lean 4)")) ;;
  l <- get_vars ;;
  st (Code (generated_proof_code l) lang_lean) ;;
  temp_file_path <- named_temporary_file (tmp_name c) (tmp_write c) (generated_proof_code l) ;;
  st (Info (lit "Validation de la démonstration avec Lean... (Fichier temporaire: "
            ++ temp_file_path ++ lit ")")) ;;
  st (Spinner (lit "Validation en cours par Lean...")) ;;
  verdict <- verify_lean_file (lean_run c) temp_file_path ;;
  set_vars (set_verdict verdict) ;;
  st (Subheader (lit "Résultat de la Validation Lean")) ;;
  l <- get_vars ;;
  (if is_valid l then st (Success (lit "La démonstration est valide selon Lean!"))
   else st (Error (lit "La démonstration contient des erreurs selon Lean!")) ;;
        set_vars (set_lean_error_feedback (lean_output l))) ;;
  l <- get_vars ;;
  st (Code (lean_output l) lang_bash) ;;
  os_remove temp_file_path ;;
  st (Success (lit "Processus terminé. Fichier temporaire nettoyé.")) ;;
  ret Continue.

(** The [except] clauses (lines 152-159); both leave the loop. *)
Definition attempt_except (e : exn) : M flow :=
  match e with
  | APIError _ =>
      st (Error (lit "Erreur de l'API: " ++ exn_str e)) ;;
      st (Error (lit "Vérifiez votre clé API et l'URL de l'API.")) ;;
      ret Break
  | _ =>
      st (Error (lit "Une erreur inattendue est survenue: " ++ exn_str e)) ;;
      st (Warning (lit "Assurez-vous que Lean est installé et accessible via la commande 'lean' dans votre terminal.")) ;;
      ret Break
  end.

(** One iteration of the [while] body (lines 88-159). *)
Definition iteration : M flow :=
  set_vars (fun l => set_attempt (S (attempt l)) l) ;;
  l <- get_vars ;;
  st (Subheader (lit "Tentative " ++ str_of_nat (attempt l) ++ lit "/" ++ str_of_nat max_attempts)) ;;
  try_except attempt_try attempt_except.

(** [while attempt < max_attempts and not is_valid: ...]; [None] when the
    fuel runs out before the condition turns false. *)
Fixpoint while_loop (fuel : nat) (s : State) : option (Res unit * State) :=
  if (attempt (vars s) <? max_attempts) && negb (is_valid (vars s)) then
    match fuel with
    | O => None
    | S fuel' =>
        match iteration s with
        | (Ok Continue, s') => while_loop fuel' s'
        | (Ok Break, s') => Some (Ok tt, s')
        | (Raise e, s') => Some (Raise e, s')
        end
    end
  else Some (Ok tt, s).

(** Lines 161-165: the terminal status shown to the user. *)
Definition final_report : M status :=
  l <- get_vars ;;
  if is_valid l then
    st (Success (lit "La démonstration finale est valide!")) ;;
    ret Succeeded
  else
    st (Error (lit "Impossible de générer une démonstration valide après plusieurs tentatives.")) ;;
    st (Warning (lit "Veuillez revoir le problème mathématique ou les configurations de l'IA.")) ;;
    ret Failed.

(** Lines 74-85: start of a run. *)
Definition start_run : M unit :=
  st (Info (lit "Processus lancé... Génération de la démonstration par l'IA.")) ;;
  emit (OpenAIConfig (if truthy openai_api_key then openai_api_key else lit "ollama")
                     openai_api_base) ;;
  set_vars (fun _ => mkLocals 0 [] [] false []).

(** The body of [if st.button(...)]: [None] as status when the problem
    statement is empty and no run takes place.  The loop gets [max_attempts]
    units of fuel, one for each iteration it can make. *)
Definition on_button (s : State) : option (Res (option status) * State) :=
  if negb (truthy math_problem_input) then
    Some ((st (Error (lit "Veuillez décrire le problème mathématique.")) ;; ret None) s)
  else
    match start_run s with
    | (Ok _, s1) =>
        match while_loop max_attempts s1 with
        | Some (Ok _, s2) => Some ((r <- final_report ;; ret (Some r)) s2)
        | Some (Raise e, s2) => Some (Raise e, s2)
        | None => None
        end
    | (Raise e, s1) => Some (Raise e, s1)
    end.

End Handler.

(** [max_attempts = 3] (line 80). *)
Definition reference_max_attempts : nat := 3.

(** * Vocabulary of the properties *)

(** ** Occurrences of a substring *)

(** [sub] occurs in [s] at offset [i]. *)
Definition occurs_at (sub s : str) (i : nat) : Prop :=
  exists pre post, s = pre ++ sub ++ post /\ length pre = i.

Definition occurs (sub s : str) : Prop := exists i, occurs_at sub s i.

(** [j] is the first offset at or after [start] where [sub] occurs. *)
Definition first_from (sub s : str) (start j : nat) : Prop :=
  start <= j /\ occurs_at sub s j /\
  forall j', start <= j' -> occurs_at sub s j' -> j <= j'.

Definition first_at (sub s : str) (i : nat) : Prop := first_from sub s 0 i.

(** A well-formed fenced block: an opening marker with a closing marker
    somewhere after it. *)
Definition has_block (g : str) : Prop :=
  exists i j, occurs_at fence_lean g i /\ i + length fence_lean <= j /\ occurs_at fence g j.

(** A proof body wrapped in a fenced Lean block. *)
Definition fenced (body : str) : str := fence_lean ++ nl ++ body ++ nl ++ fence.

Definition body_with_newline : str := lit "theorem a : True := trivial" ++ nl.

(** ** Sample generator texts *)

Definition two_blocks : str :=
  lit "Voici la preuve :" ++ nl
  ++ fence_lean ++ nl ++ lit "theorem a : True := trivial" ++ nl ++ fence ++ nl
  ++ lit "ou bien" ++ nl
  ++ fence_lean ++ nl ++ lit "theorem b : True := by simp" ++ nl ++ fence ++ nl.

Definition unclosed : str :=
  fence_lean ++ nl ++ lit "theorem a : True := trivial" ++ nl.

(** ** Observations on a run *)

(** The prompts sent to the chat endpoint, one per attempt, in order. *)
Fixpoint prompts (lg : list event) : list str :=
  match lg with
  | [] => []
  | ChatCompletion _ _ user :: lg' => user :: prompts lg'
  | _ :: lg' => prompts lg'
  end.

(** The texts shown by [st.code(lean_output, language="bash")]: what
    [verify_lean_file] returned in each attempt that got that far. *)
Fixpoint diagnostics (lg : list event) : list str :=
  match lg with
  | [] => []
  | St (Code body language) :: lg' =>
      if eqb language lang_bash then body :: diagnostics lg' else diagnostics lg'
  | _ :: lg' => diagnostics lg'
  end.

(** What [verify_lean_file] returns for a file that exists (lemma
    [verify_existing]). *)
Definition verdict_of (proc : Res str) : bool * str :=
  match proc with
  | Ok stdout => (true, msg_valid ++ stdout)
  | Raise (FileNotFoundError _) => (false, msg_no_lean)
  | Raise (CalledProcessError _ stderr) => (false, msg_errors ++ stderr)
  | Raise e => (false, msg_unexpected ++ exn_str e)
  end.

(** The state in which the button is pressed: nothing logged yet. *)
Definition fresh (files : gmap str str) : State :=
  mkState (mkLocals 0 [] [] false []) files [].

Definition status_of (s : State) : status :=
  if is_valid (vars s) then Succeeded else Failed.

(** A cycle in which generation and the temporary file work and Lean
    reports the proof invalid (exit code not zero). *)
Definition cycle_invalid (c : Cycle) : Prop :=
  exists content u msg stderr,
    chat_reply c = Ok content /\ tmp_write c = Ok u
    /\ lean_run c = Raise (CalledProcessError msg stderr).

(** The first prompt carries no feedback; every later prompt number [k+1] is
    built from the problem statement and diagnostic number [k] alone. *)
Definition feedback_chain (math_problem_input : str) (P D : list str) : Prop :=
  forall k p, P !! k = Some p ->
    match k with
    | O => p = build_prompt math_problem_input []
    | S k' => exists d, D !! k' = Some d /\ p = build_prompt math_problem_input d
    end.

(** Diagnostic number [k] is what the verifier returned in attempt [k+1]. *)
Definition outputs_from_verifier (env : Env) (D : list str) : Prop :=
  forall k d, D !! k = Some d -> d = snd (verdict_of (lean_run (env (S k)))).

(** What holds each time the loop condition is evaluated. *)
Definition loop_inv (math_problem_input : str) (env : Env) (s : State) : Prop :=
  length (prompts (log s)) = attempt (vars s)
  /\ length (diagnostics (log s)) = attempt (vars s)
  /\ feedback_chain math_problem_input (prompts (log s)) (diagnostics (log s))
  /\ outputs_from_verifier env (diagnostics (log s))
  /\ (is_valid (vars s) = false ->
      lean_error_feedback (vars s) = default [] (last (diagnostics (log s)))).

(** ** Sample runs *)

Definition default_api_base : str := Eval vm_compute in lit "http://localhost:11434/v1/".
Definition default_model : str := Eval vm_compute in lit "mistral-small3.2:latest".
Definition sample_problem : str := Eval vm_compute in lit "Montrer que True est vrai.".
Definition sample_path (k : nat) : str := lit "/tmp/tmp" ++ str_of_nat k ++ lit ".lean".
Definition sample_reply : str :=
  Eval vm_compute in fenced (lit "theorem a : True := trivial").

(** There is no [lean] executable on the search path. *)
Definition env_no_lean : Env := fun k =>
  mkCycle (Ok sample_reply) (sample_path k) (Ok tt)
          (Raise (FileNotFoundError (lit "[Errno 2] No such file or directory: 'lean'"))).

(** The disk is full: the temporary file is created, writing it raises
    [OSError]. *)
Definition env_write_fails : Env := fun k =>
  mkCycle (Ok sample_reply) (sample_path k)
          (Raise (OtherException (lit "[Errno 28] No space left on device")))
          (Ok []).

(** Lean rejects every proof. *)
Definition env_always_invalid : Env := fun k =>
  mkCycle (Ok sample_reply) (sample_path k) (Ok tt)
          (Raise (CalledProcessError (lit "Command returned non-zero exit status 1.")
                                     (lit "syntax error line 3"))).

(** Lean accepts the first proof. *)
Definition env_first_valid : Env := fun k =>
  mkCycle (Ok sample_reply) (sample_path k) (Ok tt) (Ok (lit "ok")).

(** Two different errors, then success. *)
Definition env_two_errors : Env := fun k =>
  mkCycle (Ok sample_reply) (sample_path k) (Ok tt)
          (match k with
           | 1 => Raise (CalledProcessError (lit "exit status 1") (lit "unknown identifier foo"))
           | 2 => Raise (CalledProcessError (lit "exit status 1") (lit "type mismatch"))
           | _ => Ok (lit "ok")
           end).

(** A run with the default configuration and [max_attempts = 3]. *)
Definition run_reference (env : Env) : option (Res (option status) * State) :=
  on_button default_api_base [] default_model sample_problem reference_max_attempts env
            (fresh ∅).

(** ** Effects of a run *)

(** The command lines handed to [subprocess.run], in order. *)
Fixpoint lean_calls (lg : list event) : list (list str) :=
  match lg with
  | [] => []
  | SubprocessRun argv :: lg' => argv :: lean_calls lg'
  | _ :: lg' => lean_calls lg'
  end.

(** The temporary files created, in order. *)
Fixpoint tmp_creates (lg : list event) : list str :=
  match lg with
  | [] => []
  | TmpCreate path :: lg' => path :: tmp_creates lg'
  | _ :: lg' => tmp_creates lg'
  end.

(** The temporary files written, with what was written, in order. *)
Fixpoint tmp_writes (lg : list event) : list (str * str) :=
  match lg with
  | [] => []
  | TmpWrite path text :: lg' => (path, text) :: tmp_writes lg'
  | _ :: lg' => tmp_writes lg'
  end.

(** The paths handed to [os.remove], in order. *)
Fixpoint removals (lg : list event) : list str :=
  match lg with
  | [] => []
  | OsRemove path :: lg' => path :: removals lg'
  | _ :: lg' => removals lg'
  end.

Definition lean_argv (path : str) : list str := [lit "lean"; lit "--run"; path].

(** The state in which the loop is entered (after lines 74-85). *)
Definition started (openai_api_base openai_api_key : str) (files : gmap str str) : State :=
  mkState (mkLocals 0 [] [] false []) files
          [St (Info (lit "Processus lancé... Génération de la démonstration par l'IA."));
           OpenAIConfig (if truthy openai_api_key then openai_api_key else lit "ollama")
                        openai_api_base].

(** The message that ends the page for each outcome of the handler. *)
Definition final_banner (r : option status) : st_event :=
  match r with
  | None => Error (lit "Veuillez décrire le problème mathématique.")
  | Some Succeeded => Success (lit "La démonstration finale est valide!")
  | Some Failed =>
      Warning (lit "Veuillez revoir le problème mathématique ou les configurations de l'IA.")
  end.

(** Two states that differ only in what Streamlit has shown after the loop. *)
Definition same_effects (s s' : State) : Prop :=
  vars s' = vars s /\ fs s' = fs s
  /\ prompts (log s') = prompts (log s)
  /\ diagnostics (log s') = diagnostics (log s)
  /\ lean_calls (log s') = lean_calls (log s)
  /\ tmp_creates (log s') = tmp_creates (log s)
  /\ tmp_writes (log s') = tmp_writes (log s)
  /\ removals (log s') = removals (log s).

(** What one iteration does, by what the outside does in it. *)
Definition verified_step (math_problem_input : str) (c : Cycle) (s s' : State) : Prop :=
  exists content u,
    chat_reply c = Ok content /\ tmp_write c = Ok u
    /\ vars s' = mkLocals (S (attempt (vars s)))
                   (if fst (verdict_of (lean_run c)) then lean_error_feedback (vars s)
                    else snd (verdict_of (lean_run c)))
                   (fst (extract content))
                   (fst (verdict_of (lean_run c))) (snd (verdict_of (lean_run c)))
    /\ fs s' = delete (tmp_name c) (fs s)
    /\ prompts (log s') =
         prompts (log s) ++ [build_prompt math_problem_input (lean_error_feedback (vars s))]
    /\ diagnostics (log s') = diagnostics (log s) ++ [snd (verdict_of (lean_run c))]
    /\ lean_calls (log s') = lean_calls (log s) ++ [lean_argv (tmp_name c)]
    /\ tmp_creates (log s') = tmp_creates (log s) ++ [tmp_name c]
    /\ tmp_writes (log s') = tmp_writes (log s) ++ [(tmp_name c, fst (extract content))]
    /\ removals (log s') = removals (log s) ++ [tmp_name c].

Definition aborted_step (math_problem_input : str) (c : Cycle) (s s' : State) : Prop :=
  attempt (vars s') = S (attempt (vars s))
  /\ is_valid (vars s') = is_valid (vars s)
  /\ prompts (log s') =
       prompts (log s) ++ [build_prompt math_problem_input (lean_error_feedback (vars s))]
  /\ diagnostics (log s') = diagnostics (log s)
  /\ lean_calls (log s') = lean_calls (log s)
  /\ tmp_writes (log s') = tmp_writes (log s)
  /\ removals (log s') = removals (log s)
  /\ ((exists e, chat_reply c = Raise e)
      /\ fs s' = fs s /\ tmp_creates (log s') = tmp_creates (log s)
      \/ (exists content e, chat_reply c = Ok content /\ tmp_write c = Raise e)
         /\ fs s' = <[tmp_name c := []]> (fs s)
         /\ tmp_creates (log s') = tmp_creates (log s) ++ [tmp_name c]).

(** Lean rejects the first proof; from the second attempt on the chat call
    fails at the API. *)
Definition env_api_error : Env := fun k =>
  mkCycle (match k with
           | 1 => Ok sample_reply
           | _ => Raise (APIError (lit "Connection error."))
           end)
          (sample_path k) (Ok tt)
          (Raise (CalledProcessError (lit "exit status 1") (lit "syntax error line 3"))).

(** A tag character: no whitespace, no backtick. *)
Definition tag_char (c : N) : Prop := isspace c = false /\ c <> 96%N.

(** * Properties *)

(** ** Occurrences of a substring *)

Lemma startswith_prefix (s sub : str) :
  startswith s sub = true <-> sub `prefix_of` s.
Proof.
  revert s. induction sub as [|c sub IH]; intros [|d s]; simpl.
  - split; [intros _; apply prefix_nil | reflexivity].
  - split; [intros _; apply prefix_nil | reflexivity].
  - split; [discriminate | intros H; apply prefix_nil_not in H; destruct H].
  - rewrite andb_true_iff, N.eqb_eq, IH. split.
    + intros [-> H]. by apply prefix_cons.
    + intros H. split; [by apply prefix_cons_inv_1 in H | by apply prefix_cons_inv_2 in H].
Qed.

Lemma occurs_at_drop (sub s : str) (i : nat) :
  occurs_at sub s i <-> i <= length s /\ startswith (drop i s) sub = true.
Proof.
  rewrite startswith_prefix. split.
  - intros (pre & post & -> & <-). split.
    + rewrite length_app. lia.
    + rewrite drop_app_length. by exists post.
  - intros [Hi [post Hpost]]. exists (take i s), post. split.
    + rewrite <- Hpost. symmetry. apply take_drop.
    + rewrite length_take. lia.
Qed.

Lemma occurs_at_0 (sub s : str) : occurs_at sub s 0 <-> startswith s sub = true.
Proof. rewrite occurs_at_drop. simpl. intuition lia. Qed.

Lemma occurs_at_S (sub : str) (c : N) (s : str) (i : nat) :
  occurs_at sub (c :: s) (S i) <-> occurs_at sub s i.
Proof. rewrite !occurs_at_drop. simpl. intuition lia. Qed.

Lemma occurs_at_shift (sub s : str) (start k : nat) :
  start <= length s ->
  occurs_at sub (drop start s) k <-> occurs_at sub s (start + k).
Proof.
  intros Hs. rewrite !occurs_at_drop, drop_drop, length_drop. intuition lia.
Qed.

Lemma occurs_at_bound (sub s : str) (i : nat) :
  occurs_at sub s i -> i + length sub <= length s.
Proof. intros (pre & post & -> & <-). rewrite !length_app. lia. Qed.

Lemma find_first_correct (s sub : str) :
  match find_first s sub with
  | Some k => first_at sub s k
  | None => forall j, ~ occurs_at sub s j
  end.
Proof.
  unfold first_at, first_from.
  induction s as [|c s IH]; cbn [find_first].
  - destruct (startswith [] sub) eqn:E.
    + split; [lia|]. split; [by apply occurs_at_0 | intros; lia].
    + intros j Hj. pose proof (occurs_at_bound _ _ _ Hj) as Hb.
      simpl in Hb. assert (j = 0) as -> by lia.
      apply occurs_at_0 in Hj. congruence.
  - destruct (startswith (c :: s) sub) eqn:E.
    + split; [lia|]. split; [by apply occurs_at_0 | intros; lia].
    + destruct (find_first s sub) as [k|]; cbn [option_map].
      * destruct IH as (_ & Hk & Hmin). split; [lia|]. split.
        -- by apply occurs_at_S.
        -- intros [|j'] _ Hj'.
           ++ apply occurs_at_0 in Hj'. congruence.
           ++ apply occurs_at_S in Hj'. specialize (Hmin j' ltac:(lia) Hj'). lia.
      * intros [|j] Hj.
        -- apply occurs_at_0 in Hj. congruence.
        -- apply occurs_at_S in Hj. by apply (IH j).
Qed.

Lemma first_from_unique (sub s : str) (start i j : nat) :
  first_from sub s start i -> first_from sub s start j -> i = j.
Proof.
  intros (Hi & Hoi & Hmi) (Hj & Hoj & Hmj).
  specialize (Hmi j Hj Hoj). specialize (Hmj i Hi Hoi). lia.
Qed.

Lemma find_first_spec (s sub : str) (k : nat) :
  find_first s sub = Some k <-> first_at sub s k.
Proof.
  pose proof (find_first_correct s sub) as H. split.
  - intros E. by rewrite E in H.
  - intros Hk. destruct (find_first s sub) as [k'|].
    + f_equal. eapply first_from_unique; eauto.
    + destruct Hk as (_ & Hk & _). by apply H in Hk.
Qed.

Lemma contains_occurs (s sub : str) : contains s sub = true <-> occurs sub s.
Proof.
  unfold contains. pose proof (find_first_correct s sub) as H.
  destruct (find_first s sub) as [k|].
  - split; [|done]. intros _. exists k. apply H.
  - split; [done|]. intros [j Hj]. by apply H in Hj.
Qed.

(** [str.find] from a non-negative start: the first occurrence at or after
    it, or [-1] when there is none. *)
Lemma find_spec (s sub : str) (start : nat) :
  (exists j, find s sub (Z.of_nat start) = Z.of_nat j /\ first_from sub s start j)
  \/ (find s sub (Z.of_nat start) = (-1)%Z /\
      forall j, start <= j -> ~ occurs_at sub s j).
Proof.
  unfold find, adjust_start, len.
  destruct (Z.ltb_spec (Z.of_nat start) 0) as [?|_]; [lia|].
  destruct (Z.ltb_spec (Z.of_nat (length s)) (Z.of_nat start)) as [Hlt|Hle].
  - right. split; [done|]. intros j Hj Ho. apply occurs_at_bound in Ho. lia.
  - rewrite Nat2Z.id. assert (start <= length s) as Hs by lia.
    pose proof (find_first_correct (drop start s) sub) as H.
    destruct (find_first (drop start s) sub) as [k|].
    + left. exists (start + k). split; [lia|].
      destruct H as (_ & Hk & Hmin). split; [lia|]. split.
      * by apply occurs_at_shift.
      * intros j' Hj' Ho. replace j' with (start + (j' - start)) in Ho by lia.
        apply occurs_at_shift in Ho; [|done]. specialize (Hmin _ ltac:(lia) Ho). lia.
    + right. split; [done|]. intros j Hj Ho.
      replace j with (start + (j - start)) in Ho by lia.
      apply occurs_at_shift in Ho; [|done]. by apply H in Ho.
Qed.

Lemma prefix_app_short (sub a t : str) :
  sub `prefix_of` (a ++ t) -> length sub <= length a -> sub `prefix_of` a.
Proof.
  intros [k Hk] Hlen. exists (drop (length sub) a).
  assert (take (length sub) (a ++ t) = sub) as Ht.
  { rewrite Hk. by rewrite take_app_length. }
  rewrite take_app_le in Ht by done.
  rewrite <- Ht at 1. symmetry. apply take_drop.
Qed.

(** The first occurrence of a marker that ends [p ++ sub] is still the first
    one when text follows. *)
Lemma first_at_extend (sub p t : str) :
  first_at sub (p ++ sub) (length p) -> first_at sub (p ++ sub ++ t) (length p).
Proof.
  intros (_ & _ & Hmin). split; [lia|]. split.
  - by exists p, t.
  - intros j _ Hj. destruct (Nat.le_gt_cases (length p) j) as [|Hlt]; [done|].
    apply (Hmin j); [lia|].
    apply occurs_at_drop in Hj as [_ Hj]. apply startswith_prefix in Hj.
    apply occurs_at_drop. split; [rewrite length_app; lia|].
    apply startswith_prefix.
    rewrite app_assoc, drop_app_le in Hj by (rewrite length_app; lia).
    apply prefix_app_short in Hj; [done|].
    rewrite length_drop, length_app. lia.
Qed.

Lemma first_from_shift (sub s : str) (start k : nat) :
  start <= length s ->
  first_at sub (drop start s) k -> first_from sub s start (start + k).
Proof.
  intros Hs (_ & Hk & Hmin). split; [lia|]. split.
  - by apply occurs_at_shift.
  - intros j' Hj' Ho. replace j' with (start + (j' - start)) in Ho by lia.
    apply occurs_at_shift in Ho; [|done]. specialize (Hmin _ ltac:(lia) Ho). lia.
Qed.

Lemma slice_take_drop (s : str) (a b : nat) :
  a <= b -> b <= length s ->
  slice s (Z.of_nat a) (Z.of_nat b) = take (b - a) (drop a s).
Proof.
  intros Hab Hb. unfold slice, adjust_bound, len.
  destruct (Z.ltb_spec (Z.of_nat a) 0) as [?|_]; [lia|].
  destruct (Z.ltb_spec (Z.of_nat b) 0) as [?|_]; [lia|].
  rewrite !Z.min_l by lia. rewrite Nat2Z.id. f_equal. lia.
Qed.

Lemma fence_lean_split : fence_lean = fence ++ lit "lean".
Proof. reflexivity. Qed.

Lemma occurs_at_fence_lean (g : str) (i : nat) :
  occurs_at fence_lean g i -> occurs_at fence g i.
Proof.
  intros (pre & post & -> & <-). exists pre, (lit "lean" ++ post).
  split; [|done]. by rewrite fence_lean_split, <- app_assoc.
Qed.

(** What the extraction computes, by cases on the markers of the text:
    no opening marker; a first opening marker with no closing marker after
    it; a first opening marker and the first closing marker after it. *)
Lemma extract_cases (g : str) :
  (~ occurs fence_lean g /\ extract g = (g, false))
  \/ (exists i, first_at fence_lean g i /\
        (forall j, i + 7 <= j -> ~ occurs_at fence g j) /\
        extract g = (g, true))
  \/ (exists i j, first_at fence_lean g i /\ first_from fence g (i + 7) j /\
        extract g = (strip (take (j - (i + 7)) (drop (i + 7) g)), false)).
Proof.
  unfold extract. destruct (contains g fence_lean) eqn:Eo.
  - apply contains_occurs in Eo as [i0 Hi0].
    assert (contains g fence = true) as ->.
    { apply contains_occurs. exists i0. by apply occurs_at_fence_lean. }
    right. cbn [andb].
    change 0%Z with (Z.of_nat 0).
    destruct (find_spec g fence_lean 0) as [(i & -> & Hi)|[_ Hno]];
      [|exfalso; apply (Hno i0); [lia | done]].
    replace (Z.of_nat i + len fence_lean)%Z with (Z.of_nat (i + 7))
      by (change (len fence_lean) with 7%Z; lia).
    destruct (find_spec g fence (i + 7)) as [(j & -> & Hj)|[-> Hno]].
    + right. exists i, j. split; [done|]. split; [done|].
      destruct (Z.eqb_spec (Z.of_nat (i + 7)) (-1)) as [?|_]; [lia|].
      destruct (Z.eqb_spec (Z.of_nat j) (-1)) as [?|_]; [lia|].
      cbn [negb andb]. destruct Hj as (Hle & Hoj & _).
      apply occurs_at_bound in Hoj. rewrite slice_take_drop by lia. done.
    + left. exists i. split; [done|]. split; [done|].
      by rewrite andb_false_r.
  - left. split; [|done]. intros Ho. apply contains_occurs in Ho. congruence.
Qed.

Lemma extract_between (g : str) (i j : nat) :
  first_at fence_lean g i -> first_from fence g (i + 7) j ->
  extract g = (strip (take (j - (i + 7)) (drop (i + 7) g)), false).
Proof.
  intros Hi Hj.
  destruct (extract_cases g) as [[Hno _]|[(i' & Hi' & Hno & _)|(i' & j' & Hi' & Hj' & E)]].
  - exfalso. apply Hno. exists i. apply Hi.
  - assert (i' = i) as -> by (eapply first_from_unique; eauto).
    exfalso. apply (Hno j); apply Hj.
  - assert (i' = i) as -> by (eapply first_from_unique; eauto).
    assert (j' = j) as -> by (eapply first_from_unique; eauto).
    exact E.
Qed.

Lemma extract_no_opening (g : str) :
  ~ occurs fence_lean g -> extract g = (g, false).
Proof.
  intros Hno.
  destruct (extract_cases g) as [[_ E]|[(i & Hi & _)|(i & j & Hi & _)]];
    [done | exfalso; apply Hno; exists i; apply Hi ..].
Qed.

(** ** Whitespace trimming *)

Lemma lstrip_suffix (s : str) : exists ws, s = ws ++ lstrip s.
Proof.
  induction s as [|c s [ws IH]]; simpl.
  - by exists [].
  - destruct (isspace c).
    + exists (c :: ws). simpl. by f_equal.
    + by exists [].
Qed.

Lemma rstrip_prefix (s : str) : exists ws, s = rstrip s ++ ws.
Proof.
  unfold rstrip. destruct (lstrip_suffix (rev s)) as [ws E].
  exists (rev ws). rewrite <- rev_app_distr, <- E. by rewrite rev_involutive.
Qed.

Lemma strip_infix (s : str) : exists a b, s = a ++ strip s ++ b.
Proof.
  unfold strip. destruct (rstrip_prefix s) as [b Eb].
  destruct (lstrip_suffix (rstrip s)) as [a Ea].
  exists a, b. rewrite app_assoc, <- Ea. exact Eb.
Qed.

Lemma strip_fixed (s : str) :
  strip s = s -> lstrip s = s /\ rstrip s = s.
Proof.
  intros E. destruct (rstrip_prefix s) as [b Eb].
  destruct (lstrip_suffix (rstrip s)) as [a Ea].
  fold (strip s) in Ea. rewrite E in Ea.
  assert (length s = length (rstrip s) + length b) as L1
    by (rewrite Eb at 1; by rewrite length_app).
  assert (length (rstrip s) = length a + length s) as L2
    by (rewrite Ea at 1; by rewrite length_app).
  assert (b = []) as -> by (apply length_zero_iff_nil; lia).
  rewrite app_nil_r in Eb. split; [|done].
  unfold strip in E. by rewrite <- Eb in E.
Qed.

Lemma lstrip_app_fixed (x y : str) :
  lstrip x = x -> x <> [] -> lstrip (x ++ y) = x ++ y.
Proof.
  destruct x as [|c x]; [done|]. simpl. intros E _.
  destruct (isspace c); [|done].
  destruct (lstrip_suffix x) as [ws Ews]. rewrite E in Ews.
  apply (f_equal length) in Ews. rewrite length_app in Ews. simpl in Ews. lia.
Qed.

Lemma strip_padded (body : str) :
  strip body = body -> strip (nl ++ body ++ nl) = body.
Proof.
  intros E. apply strip_fixed in E as [El Er].
  assert (lstrip (rev body) = rev body) as Erev.
  { unfold rstrip in Er. apply (f_equal (@rev N)) in Er.
    by rewrite rev_involutive in Er. }
  unfold strip, rstrip.
  replace (rev (nl ++ body ++ nl)) with (10%N :: rev body ++ nl)
    by (rewrite !rev_app_distr; reflexivity).
  change (lstrip (10%N :: rev body ++ nl)) with (lstrip (rev body ++ nl)).
  destruct body as [|c body]; [done|].
  rewrite lstrip_app_fixed; [|done|].
  - rewrite rev_app_distr, rev_involutive.
    change (rev nl ++ c :: body) with (10%N :: c :: body).
    change (lstrip (10%N :: c :: body)) with (lstrip (c :: body)). exact El.
  - intros Hnil. apply (f_equal length) in Hnil.
    rewrite length_rev in Hnil. simpl in Hnil. lia.
Qed.

(** An occurrence of [sub] cannot straddle a character that is not in [sub]. *)
Lemma occurs_at_split_char (sub a b : str) (c : N) (j : nat) :
  c ∉ sub -> sub <> [] ->
  occurs_at sub (a ++ c :: b) j ->
  occurs_at sub a j \/ (length a < j /\ occurs_at sub b (j - length a - 1)).
Proof.
  intros Hc Hne. revert j. induction a as [|x a IH]; intros j Hj.
  - destruct j as [|j].
    + apply occurs_at_0, startswith_prefix in Hj. destruct sub as [|d sub]; [done|].
      apply prefix_cons_inv_1 in Hj. subst d. exfalso. apply Hc. left.
    + right. change ([] ++ c :: b) with (c :: b) in Hj. apply occurs_at_S in Hj.
      split; [simpl; lia|].
      replace (S j - length (@nil N) - 1) with j by (simpl; lia). done.
  - destruct j as [|j].
    + left. apply occurs_at_0, startswith_prefix in Hj.
      apply occurs_at_0, startswith_prefix.
      destruct (Nat.le_gt_cases (length sub) (length (x :: a))) as [Hle|Hgt].
      * change (x :: a ++ c :: b) with ((x :: a) ++ c :: b) in Hj.
        by apply prefix_app_short in Hj.
      * exfalso. apply Hc. destruct Hj as [k Hk].
        assert ((sub ++ k) !! length (x :: a) = Some c) as Hl.
        { rewrite <- Hk. change (x :: a ++ c :: b) with ((x :: a) ++ c :: b).
          apply list_lookup_middle. done. }
        rewrite lookup_app_l in Hl by done.
        by apply list_elem_of_lookup_2 in Hl.
    + change ((x :: a) ++ c :: b) with (x :: a ++ c :: b) in Hj.
      apply occurs_at_S in Hj. destruct (IH _ Hj) as [H|[H1 H2]].
      * left. by apply occurs_at_S.
      * right. split; [simpl; lia|].
        replace (S j - length (x :: a) - 1) with (j - length a - 1) by (simpl; lia).
        done.
Qed.

Lemma occurs_at_app_r (sub x t : str) (k : nat) :
  occurs_at sub x k -> occurs_at sub (x ++ t) k.
Proof.
  intros (pre & post & -> & <-). exists pre, (post ++ t).
  split; [|done]. by rewrite <- !app_assoc.
Qed.

Lemma occurs_at_app_l (sub a x : str) (k : nat) :
  occurs_at sub x k -> occurs_at sub (a ++ x) (length a + k).
Proof.
  intros (pre & post & -> & <-). exists (a ++ pre), post.
  split; [by rewrite <- app_assoc | by rewrite length_app].
Qed.

Lemma strip_no_occurs (sub x : str) : ~ occurs sub x -> ~ occurs sub (strip x).
Proof.
  intros Hno [k Hk]. apply Hno. destruct (strip_infix x) as (a & b & E).
  exists (length a + k). rewrite E. by apply occurs_at_app_l, occurs_at_app_r.
Qed.

(** The text cut out between the opening marker and the first closing marker
    after it holds no marker. *)
Lemma between_no_fence (g : str) (start j : nat) :
  first_from fence g start j -> ~ occurs fence (take (j - start) (drop start g)).
Proof.
  intros (Hle & Hoj & Hmin) [k Hk].
  pose proof (occurs_at_bound _ _ _ Hoj) as Hbj.
  pose proof (occurs_at_bound _ _ _ Hk) as Hbk.
  rewrite length_take, length_drop in Hbk. change (length fence) with 3 in *.
  apply (occurs_at_app_r _ _ (drop (j - start) (drop start g))) in Hk.
  rewrite take_drop in Hk. apply occurs_at_shift in Hk; [|lia].
  specialize (Hmin (start + k) ltac:(lia) Hk). lia.
Qed.

(** ** The extractor: claims C6, C7 and C8 *)

(** C6. Whatever follows, a text whose first opening marker is followed by
    [body] and then by the first closing marker after it extracts to the
    trimmed [body]: the first opening marker and the first closing marker
    after it decide, and later blocks (in [rest]) are ignored. *)
Theorem extract_first_block (pre body rest : str)
  (Hopen : first_at fence_lean (pre ++ fence_lean) (length pre))
  (Hclose : first_at fence (body ++ fence) (length body)) :
  extract (pre ++ fence_lean ++ body ++ fence ++ rest) = (strip body, false).
Proof.
  set (g := pre ++ fence_lean ++ body ++ fence ++ rest).
  assert (drop (length pre + 7) g = body ++ fence ++ rest) as Hdrop.
  { unfold g. rewrite app_assoc.
    replace (length pre + 7) with (length (pre ++ fence_lean))
      by (rewrite length_app; reflexivity).
    apply drop_app_length. }
  assert (length pre + 7 <= length g) as Hlen.
  { unfold g. rewrite !length_app. change (length fence_lean) with 7. lia. }
  rewrite (extract_between g (length pre) (length pre + 7 + length body)).
  - replace (length pre + 7 + length body - (length pre + 7)) with (length body) by lia.
    rewrite Hdrop. by rewrite take_app_length.
  - by apply first_at_extend.
  - apply first_from_shift; [done|]. rewrite Hdrop. by apply first_at_extend.
Qed.

Lemma extract_first_block_witness :
  first_at fence_lean ((lit "Voici la preuve :" ++ nl) ++ fence_lean)
           (length (lit "Voici la preuve :" ++ nl))
  /\ first_at fence ((nl ++ lit "theorem a : True := trivial" ++ nl) ++ fence)
              (length (nl ++ lit "theorem a : True := trivial" ++ nl))
  /\ extract two_blocks = (lit "theorem a : True := trivial", false).
Proof.
  assert (first_at fence_lean ((lit "Voici la preuve :" ++ nl) ++ fence_lean)
            (length (lit "Voici la preuve :" ++ nl))) as H1
    by (apply find_first_spec; vm_compute; reflexivity).
  assert (first_at fence ((nl ++ lit "theorem a : True := trivial" ++ nl) ++ fence)
            (length (nl ++ lit "theorem a : True := trivial" ++ nl))) as H2
    by (apply find_first_spec; vm_compute; reflexivity).
  split; [exact H1|]. split; [exact H2|].
  exact (extract_first_block
           (lit "Voici la preuve :" ++ nl)
           (nl ++ lit "theorem a : True := trivial" ++ nl)
           (nl ++ lit "ou bien" ++ nl ++ fence_lean ++ nl
            ++ lit "theorem b : True := by simp" ++ nl ++ fence ++ nl)
           H1 H2).
Defined.

(** C7. When the generated text has no well-formed fenced block, the
    extraction step ends normally and leaves [generated_proof_code] (and all
    other variables and files) as they are; it shows the warning exactly when
    an opening marker is present, and nothing when there is none. *)
Theorem extraction_fallback (s : State)
  (Hno : ~ has_block (generated_proof_code (vars s))) :
  fst (extract (generated_proof_code (vars s))) = generated_proof_code (vars s)
  /\ exists s',
      extraction_block s = (Ok tt, s') /\ vars s' = vars s /\ fs s' = fs s
      /\ (~ occurs fence_lean (generated_proof_code (vars s)) -> log s' = log s)
      /\ (occurs fence_lean (generated_proof_code (vars s)) ->
          log s' = log s ++ [St (Warning msg_malformed)]).
Proof.
  destruct s as [[a fb g v out] files lg]. simpl in *.
  unfold extraction_block, bind, get_vars, set_vars, st, emit, ret. simpl.
  destruct (extract_cases g) as [[Hn E]|[(i & Hi & Hnc & E)|(i & j & Hi & Hj & _)]].
  - rewrite E. simpl. split; [done|]. eexists. split; [reflexivity|]. simpl.
    split; [done|]. split; [done|]. split; [done|]. intros Ho. by destruct Hn.
  - rewrite E. simpl. split; [done|]. eexists. split; [reflexivity|]. simpl.
    split; [done|]. split; [done|]. split; [|done].
    intros Hn. destruct Hn. exists i. apply Hi.
  - exfalso. apply Hno. exists i, j. split; [apply Hi|]. split; apply Hj.
Qed.

Lemma not_occurs_from (sub s : str) (start : nat) :
  find s sub (Z.of_nat start) = (-1)%Z ->
  forall j, start <= j -> ~ occurs_at sub s j.
Proof.
  intros E. destruct (find_spec s sub start) as [(j & Ej & _)|[_ H]]; [lia | done].
Qed.

Lemma first_at_0 (sub t : str) : first_at sub (sub ++ t) 0.
Proof. split; [lia|]. split; [by exists [], t | intros; lia]. Qed.

Lemma extraction_fallback_witness :
  ~ has_block unclosed
  /\ exists s',
      extraction_block (mkState (mkLocals 1 [] unclosed false []) ∅ []) = (Ok tt, s')
      /\ generated_proof_code (vars s') = unclosed
      /\ log s' = [St (Warning msg_malformed)].
Proof.
  assert (~ has_block unclosed) as Hno.
  { intros (i & j & Hi & Hle & Hj).
    assert (7 <= j) as H7 by (change (length fence_lean) with 7 in Hle; lia).
    revert Hj. by apply (not_occurs_from fence unclosed 7). }
  split; [exact Hno|].
  destruct (extraction_fallback (mkState (mkLocals 1 [] unclosed false []) ∅ []) Hno)
    as (_ & s' & E & Hv & _ & _ & Hl).
  exists s'. split; [exact E|]. split; [by rewrite Hv|].
  apply Hl. exists 0. apply (first_at_0 fence_lean).
Defined.

(** C8 as stated fails: a body that ends in a newline is trimmed when it
    comes fenced and kept as it is when it comes unfenced. *)
Lemma fenced_unfenced_differ :
  fst (extract (fenced body_with_newline)) <> fst (extract body_with_newline).
Proof. vm_compute. discriminate. Qed.

Lemma backtick_not_nl : 10%N ∉ fence.
Proof. intros H. vm_compute in H. by repeat (apply elem_of_cons in H as [?|H]; [done|]);
  apply elem_of_nil in H. Qed.

Lemma first_closing_padded (body : str) :
  ~ occurs fence body ->
  first_at fence ((nl ++ body ++ nl) ++ fence) (length (nl ++ body ++ nl)).
Proof.
  intros Hno. split; [lia|]. split.
  - exists (nl ++ body ++ nl), []. by rewrite app_nil_r.
  - intros j _ Hj.
    replace ((nl ++ body ++ nl) ++ fence) with ([] ++ 10%N :: (body ++ 10%N :: fence)) in Hj
      by (unfold nl; simpl; by rewrite <- app_assoc).
    apply occurs_at_split_char in Hj as [Hj|[H1 Hj]]; [| |apply backtick_not_nl|done].
    + apply occurs_at_bound in Hj. simpl in Hj. lia.
    + apply occurs_at_split_char in Hj as [Hj|[H2 Hj]]; [| |apply backtick_not_nl|done].
      * exfalso. apply Hno. eexists. exact Hj.
      * rewrite !length_app. simpl in *. lia.
Qed.

(** C8, amended. For a body that is already trimmed and holds no marker, the
    fenced body and the unfenced body both extract to the body itself; and
    on every text, extracting from the extracted text changes nothing. *)
Theorem extract_canonical (body g : str)
  (Htrim : strip body = body) (Hno : ~ occurs fence body) :
  fst (extract (fenced body)) = body
  /\ fst (extract body) = body
  /\ fst (extract (fst (extract g))) = fst (extract g).
Proof.
  split; [|split].
  - unfold fenced.
    rewrite (extract_between _ 0 (7 + length (nl ++ body ++ nl))).
    + change (0 + 7) with 7.
      replace (7 + length (nl ++ body ++ nl) - 7) with (length (nl ++ body ++ nl)) by lia.
      change (drop 7 (fence_lean ++ nl ++ body ++ nl ++ fence))
        with (nl ++ body ++ nl ++ fence).
      replace (nl ++ body ++ nl ++ fence) with ((nl ++ body ++ nl) ++ fence)
        by (by rewrite <- !app_assoc).
      rewrite take_app_length. simpl. by apply strip_padded.
    + apply first_at_0.
    + apply (first_from_shift fence _ 7).
      * rewrite length_app. change (length fence_lean) with 7. lia.
      * change (drop 7 (fence_lean ++ nl ++ body ++ nl ++ fence))
          with (nl ++ body ++ nl ++ fence).
        replace (nl ++ body ++ nl ++ fence) with ((nl ++ body ++ nl) ++ fence)
          by (by rewrite <- !app_assoc).
        by apply first_closing_padded.
  - rewrite extract_no_opening; [done|].
    intros [i Hi]. apply Hno. exists i. by apply occurs_at_fence_lean.
  - destruct (extract_cases g) as [[_ E]|[(i & _ & _ & E)|(i & j & Hi & Hj & E)]].
    + by rewrite E; simpl; rewrite E.
    + by rewrite E; simpl; rewrite E.
    + rewrite E. simpl. rewrite extract_no_opening; [done|].
      intros [k Hk]. apply occurs_at_fence_lean in Hk.
      apply (strip_no_occurs fence (take (j - (i + 7)) (drop (i + 7) g))).
      * by apply between_no_fence.
      * by exists k.
Qed.

Lemma extract_canonical_witness :
  strip (lit "theorem a : True := trivial") = lit "theorem a : True := trivial"
  /\ ~ occurs fence (lit "theorem a : True := trivial")
  /\ fst (extract (fenced (lit "theorem a : True := trivial")))
     = lit "theorem a : True := trivial"
  /\ fst (extract (lit "theorem a : True := trivial")) = lit "theorem a : True := trivial"
  /\ fst (extract (fst (extract two_blocks))) = fst (extract two_blocks).
Proof.
  assert (~ occurs fence (lit "theorem a : True := trivial")) as Hno.
  { intros Ho. apply contains_occurs in Ho. vm_compute in Ho. discriminate. }
  split; [reflexivity|]. split; [exact Hno|].
  exact (extract_canonical (lit "theorem a : True := trivial") two_blocks eq_refl Hno).
Defined.

(** ** The verifier adapter: claim C10 *)

Lemma verify_existing (proc : Res str) (p : str) (s : State) (c : str) :
  fs s !! p = Some c ->
  verify_lean_file proc p s =
    (Ok (verdict_of proc),
     mkState (vars s) (fs s) (log s ++ [SubprocessRun [lit "lean"; lit "--run"; p]])).
Proof.
  intros E.
  unfold verify_lean_file, try_except, bind, path_exists, subprocess_run, external, ret.
  rewrite E. rewrite bool_decide_eq_true_2 by eauto. cbn [negb].
  destruct proc as [out|[]]; reflexivity.
Qed.

Lemma verify_missing (proc : Res str) (p : str) (s : State) :
  fs s !! p = None ->
  verify_lean_file proc p s = (Ok (false, msg_no_file p), s).
Proof.
  intros E.
  unfold verify_lean_file, try_except, bind, path_exists, ret.
  rewrite E. rewrite bool_decide_eq_false_2 by (by intros [? ?]). reflexivity.
Qed.

(** C10. [verify_lean_file] is total: on every path, in every state and
    whatever running Lean does, it returns a pair of a verdict and a text and
    raises nothing.  When the file does not exist the verdict is [False] with
    the missing-file message and nothing else happens (no subprocess is
    started); when it exists, the subprocess is started exactly once. *)
Theorem verify_lean_file_total (proc : Res str) (file_path : str) (s : State) :
  exists b out s',
    verify_lean_file proc file_path s = (Ok (b, out), s')
    /\ match fs s !! file_path with
       | None => b = false /\ out = msg_no_file file_path /\ s' = s
       | Some _ =>
           (b, out) = verdict_of proc /\ vars s' = vars s /\ fs s' = fs s
           /\ log s' = log s ++ [SubprocessRun [lit "lean"; lit "--run"; file_path]]
       end.
Proof.
  destruct (fs s !! file_path) as [c|] eqn:E.
  - rewrite (verify_existing proc file_path s c E).
    destruct (verdict_of proc) as [b out]. by eexists b, out, _.
  - rewrite (verify_missing proc file_path s E). by eexists false, _, s.
Qed.

(** ** One iteration of the loop *)

Lemma prompts_app (l1 l2 : list event) : prompts (l1 ++ l2) = prompts l1 ++ prompts l2.
Proof.
  induction l1 as [|e l1 IH]; [done|]. destruct e; simpl; by rewrite ?IH.
Qed.

Lemma diagnostics_app (l1 l2 : list event) :
  diagnostics (l1 ++ l2) = diagnostics l1 ++ diagnostics l2.
Proof.
  induction l1 as [|e l1 IH]; [done|].
  destruct e as [[]| | | | | |]; simpl; rewrite ?IH; try done.
  by destruct (eqb language lang_bash).
Qed.

#[local] Arguments lit : simpl never.
#[local] Arguments str_of_nat : simpl never.
#[local] Arguments build_prompt : simpl never.
#[local] Arguments extract : simpl never.

(** Runs the monadic code of an iteration on a symbolic state. *)
Ltac run_monad :=
  unfold iteration, attempt_try, attempt_except, extraction_block, try_except, bind,
    get_vars, set_vars, st, emit, external, ret, named_temporary_file, os_remove;
  cbn [vars attempt set_attempt set_generated_proof_code set_verdict
       set_lean_error_feedback generated_proof_code lean_error_feedback is_valid
       lean_output fs log fst snd].

Ltac log_proj := rewrite ?prompts_app, ?diagnostics_app; simpl; rewrite ?app_nil_r.

Section Run.

Variables openai_api_base openai_api_key openai_model : str.
Variable math_problem_input : str.
Variable max_attempts : nat.
Variable env : Env.

#[local] Abbreviation iteration' :=
  (iteration openai_model math_problem_input max_attempts env).
#[local] Abbreviation while_loop' :=
  (while_loop openai_model math_problem_input max_attempts env).
#[local] Abbreviation start_run' := (start_run openai_api_base openai_api_key).
#[local] Abbreviation on_button' :=
  (on_button openai_api_base openai_api_key openai_model math_problem_input
             max_attempts env).

(** Generation and the temporary file work: the verifier is called, its
    verdict is recorded, the temporary file is removed and the iteration ends
    normally, whatever the verdict. *)
Lemma iteration_verified (s : State) (content : str) (u : unit) :
  chat_reply (env (S (attempt (vars s)))) = Ok content ->
  tmp_write (env (S (attempt (vars s)))) = Ok u ->
  exists s',
    iteration' s = (Ok Continue, s')
    /\ vars s' =
         (let v := verdict_of (lean_run (env (S (attempt (vars s))))) in
          mkLocals (S (attempt (vars s)))
                   (if fst v then lean_error_feedback (vars s) else snd v)
                   (fst (extract content)) (fst v) (snd v))
    /\ fs s' = delete (tmp_name (env (S (attempt (vars s))))) (fs s)
    /\ prompts (log s') =
         prompts (log s) ++ [build_prompt math_problem_input (lean_error_feedback (vars s))]
    /\ diagnostics (log s') =
         diagnostics (log s) ++ [snd (verdict_of (lean_run (env (S (attempt (vars s))))))].
Proof.
  intros Hc Hw. run_monad. rewrite Hc, Hw.
  destruct (extract content) as [code malformed] eqn:E.
  run_monad.
  destruct malformed; run_monad.
  all: erewrite verify_existing by apply lookup_insert_eq.
  all: destruct (verdict_of _) as [[] out]; run_monad.
  all: rewrite lookup_insert_eq.
  all: eexists; split; [reflexivity|]; cbn [vars fs log].
  all: split; [reflexivity|]; split; [by rewrite insert_insert_eq, delete_insert_eq|].
  all: split; log_proj; reflexivity.
Qed.

(** The chat call raises: the handler leaves the loop. *)
Lemma iteration_chat_raises (s : State) (e : exn) :
  chat_reply (env (S (attempt (vars s)))) = Raise e ->
  exists s',
    iteration' s = (Ok Break, s')
    /\ attempt (vars s') = S (attempt (vars s))
    /\ is_valid (vars s') = is_valid (vars s)
    /\ fs s' = fs s
    /\ prompts (log s') =
         prompts (log s) ++ [build_prompt math_problem_input (lean_error_feedback (vars s))]
    /\ diagnostics (log s') = diagnostics (log s).
Proof.
  intros Hc. run_monad. rewrite Hc.
  destruct e; run_monad.
  all: eexists; split; [reflexivity|]; cbn [vars fs log].
  all: repeat (split; [reflexivity|]).
  all: split; log_proj; reflexivity.
Qed.

(** Writing the temporary file raises: the handler leaves the loop and the
    file that was created stays on disk. *)
Lemma iteration_write_raises (s : State) (content : str) (e : exn) :
  chat_reply (env (S (attempt (vars s)))) = Ok content ->
  tmp_write (env (S (attempt (vars s)))) = Raise e ->
  exists s',
    iteration' s = (Ok Break, s')
    /\ attempt (vars s') = S (attempt (vars s))
    /\ is_valid (vars s') = is_valid (vars s)
    /\ fs s' = <[tmp_name (env (S (attempt (vars s)))) := []]> (fs s)
    /\ prompts (log s') =
         prompts (log s) ++ [build_prompt math_problem_input (lean_error_feedback (vars s))]
    /\ diagnostics (log s') = diagnostics (log s).
Proof.
  intros Hc Hw. run_monad. rewrite Hc, Hw.
  destruct (extract content) as [code malformed] eqn:E.
  run_monad.
  destruct malformed, e; run_monad.
  all: eexists; split; [reflexivity|]; cbn [vars fs log].
  all: repeat (split; [reflexivity|]).
  all: split; log_proj; reflexivity.
Qed.

(** One iteration never raises: it ends the [try] normally or leaves the
    loop through one of the handlers. *)
Lemma iteration_step (s : State) :
  exists f s',
    iteration' s = (Ok f, s')
    /\ attempt (vars s') = S (attempt (vars s))
    /\ prompts (log s') =
         prompts (log s) ++ [build_prompt math_problem_input (lean_error_feedback (vars s))]
    /\ match f with
       | Continue =>
           diagnostics (log s') =
             diagnostics (log s) ++ [snd (verdict_of (lean_run (env (S (attempt (vars s))))))]
           /\ (is_valid (vars s') = false ->
               lean_error_feedback (vars s') =
                 snd (verdict_of (lean_run (env (S (attempt (vars s)))))))
       | Break =>
           diagnostics (log s') = diagnostics (log s)
           /\ is_valid (vars s') = is_valid (vars s)
       end.
Proof.
  destruct (chat_reply (env (S (attempt (vars s))))) as [content|e] eqn:Hc.
  - destruct (tmp_write (env (S (attempt (vars s))))) as [u|e] eqn:Hw.
    + destruct (iteration_verified s content u Hc Hw) as (s' & E & Hv & _ & Hp & Hd).
      exists Continue, s'. rewrite Hv. simpl. split; [done|]. split; [done|].
      split; [done|]. split; [done|]. by intros ->.
    + destruct (iteration_write_raises s content e Hc Hw) as (s' & E & Ha & Hv & _ & Hp & Hd).
      by exists Break, s'.
  - destruct (iteration_chat_raises s e Hc) as (s' & E & Ha & Hv & _ & Hp & Hd).
    by exists Break, s'.
Qed.

(** ** The loop *)

Lemma while_loop_done (fuel : nat) (s : State) :
  (attempt (vars s) <? max_attempts) && negb (is_valid (vars s)) = false ->
  while_loop' fuel s = Some (Ok tt, s).
Proof. intros E. destruct fuel; simpl; by rewrite E. Qed.

(** The loop ends, and ends normally, as soon as the fuel covers the
    attempts that are left. *)
Lemma while_loop_total (fuel : nat) (s : State) :
  max_attempts <= attempt (vars s) + fuel ->
  exists s', while_loop' fuel s = Some (Ok tt, s').
Proof.
  revert s. induction fuel as [|fuel IH]; intros s Hf; simpl.
  - destruct (Nat.ltb_spec (attempt (vars s)) max_attempts) as [?|_]; [lia|].
    by exists s.
  - destruct ((attempt (vars s) <? max_attempts) && negb (is_valid (vars s))); [|by exists s].
    destruct (iteration_step s) as ([] & s1 & -> & Ha & _).
    + apply IH. lia.
    + by exists s1.
Qed.

Lemma feedback_chain_snoc (P D D' : list str) (fb : str) :
  length P = length D -> feedback_chain math_problem_input P D ->
  fb = default [] (last D) ->
  feedback_chain math_problem_input (P ++ [build_prompt math_problem_input fb]) (D ++ D').
Proof.
  intros Hlen Hch Hfb k p Hk. apply lookup_snoc_Some in Hk as [[_ Hk]|[-> <-]].
  - specialize (Hch k p Hk). destruct k as [|k]; [done|].
    destruct Hch as (d & Hd & ->). exists d. split; [|done]. by apply lookup_app_l_Some.
  - destruct (length P) as [|k] eqn:EP.
    + symmetry in Hlen. apply length_zero_iff_nil in Hlen. by subst.
    + rewrite last_lookup, <- Hlen in Hfb. simpl in Hfb.
      destruct (lookup_lt_is_Some_2 D k ltac:(lia)) as [d Hd].
      rewrite Hd in Hfb. simpl in Hfb. subst fb.
      exists d. split; [|done]. by apply lookup_app_l_Some.
Qed.

(** The invariant is kept by every iteration, so it holds of the log the
    loop leaves behind. *)
Lemma while_loop_chain (fuel : nat) (s : State) (r : Res unit) (s' : State) :
  loop_inv math_problem_input env s -> while_loop' fuel s = Some (r, s') ->
  feedback_chain math_problem_input (prompts (log s')) (diagnostics (log s'))
  /\ outputs_from_verifier env (diagnostics (log s')).
Proof.
  revert s. induction fuel as [|fuel IH]; intros s (HP & HD & Hch & Hout & Hfb); simpl.
  - destruct ((attempt (vars s) <? max_attempts) && negb (is_valid (vars s))); [done|].
    by intros [= <- <-].
  - destruct ((attempt (vars s) <? max_attempts) && negb (is_valid (vars s))) eqn:Ec;
      [|by intros [= <- <-]].
    apply andb_true_iff in Ec as [_ Ev]. apply negb_true_iff in Ev.
    destruct (iteration_step s) as (f & s1 & -> & Ha & Hp & Hf).
    assert (feedback_chain math_problem_input (prompts (log s1)) (diagnostics (log s1)))
      as Hch1.
    { rewrite Hp. destruct f; destruct Hf as [-> _].
      - apply feedback_chain_snoc; [lia | done | by apply Hfb].
      - rewrite <- (app_nil_r (diagnostics (log s))).
        apply feedback_chain_snoc; [lia | done | by apply Hfb]. }
    destruct f; destruct Hf as [Hd Hf].
    + apply IH. split; [rewrite Hp, length_app; simpl; lia|].
      split; [rewrite Hd, length_app; simpl; lia|]. split; [done|]. split.
      * rewrite Hd. intros k d Hk. apply lookup_snoc_Some in Hk as [[_ Hk]|[-> <-]].
        -- by apply Hout.
        -- by rewrite HD.
      * intros Hv. rewrite Hd, last_snoc. simpl. by apply Hf.
    + intros [= <- <-]. split; [done|]. by rewrite Hd.
Qed.

Lemma while_loop_all_invalid (fuel : nat) (s : State) :
  is_valid (vars s) = false ->
  attempt (vars s) <= max_attempts ->
  max_attempts <= attempt (vars s) + fuel ->
  (forall k, attempt (vars s) < k <= max_attempts -> cycle_invalid (env k)) ->
  exists s', while_loop' fuel s = Some (Ok tt, s')
    /\ attempt (vars s') = max_attempts /\ is_valid (vars s') = false
    /\ length (prompts (log s')) =
         length (prompts (log s)) + (max_attempts - attempt (vars s)).
Proof.
  revert s. induction fuel as [|fuel IH]; intros s Hv Hle Hf Henv.
  - exists s. rewrite while_loop_done.
    + split; [done|]. split; [lia|]. split; [done|]. lia.
    + destruct (Nat.ltb_spec (attempt (vars s)) max_attempts); [lia | done].
  - destruct (attempt (vars s) <? max_attempts) eqn:Ec.
    + apply Nat.ltb_lt in Ec as Hlt.
      simpl. rewrite Ec, Hv. cbn [negb andb].
      destruct (Henv (S (attempt (vars s))) ltac:(lia))
        as (content & u & msg & stderr & Hc & Hw & Hr).
      destruct (iteration_verified s content u Hc Hw) as (s1 & -> & Hv1 & _ & Hp1 & _).
      rewrite Hr in Hv1. simpl in Hv1.
      destruct (IH s1) as (s' & E & Ha & Hva & HP).
      * by rewrite Hv1.
      * rewrite Hv1. simpl. lia.
      * rewrite Hv1. simpl. lia.
      * intros k Hk. apply Henv. rewrite Hv1 in Hk. simpl in Hk. lia.
      * exists s'. split; [done|]. split; [done|]. split; [done|].
        rewrite HP, Hp1, length_app, Hv1. simpl. lia.
    + apply Nat.ltb_ge in Ec as Hge.
      exists s. rewrite while_loop_done by (by rewrite Ec).
      split; [done|]. split; [lia|]. split; [done|]. lia.
Qed.

Lemma while_loop_stops_on_valid (fuel : nat) (s s' : State) :
  1 <= fuel ->
  attempt (vars s) < max_attempts -> is_valid (vars s) = false ->
  iteration' s = (Ok Continue, s') -> is_valid (vars s') = true ->
  while_loop' fuel s = Some (Ok tt, s').
Proof.
  intros Hf Ha Hv E Hv'. destruct fuel as [|fuel]; [lia|]. simpl.
  apply Nat.ltb_lt in Ha. rewrite Ha, Hv, E. cbn [negb andb].
  apply while_loop_done. rewrite Hv'. apply andb_false_r.
Qed.

(** ** The whole handler *)

Lemma loop_inv_start (files : gmap str str) :
  exists s1, start_run' (fresh files) = (Ok tt, s1)
    /\ vars s1 = mkLocals 0 [] [] false [] /\ fs s1 = files
    /\ loop_inv math_problem_input env s1.
Proof.
  eexists. split; [reflexivity|]. split; [reflexivity|]. split; [reflexivity|].
  split; [reflexivity|]. split; [reflexivity|]. split; [by intros [|k] p|].
  split; [by intros k d|]. done.
Qed.

Lemma on_button_run (files : gmap str str) (s1 s2 : State) :
  truthy math_problem_input = true ->
  start_run' (fresh files) = (Ok tt, s1) ->
  while_loop' max_attempts s1 = Some (Ok tt, s2) ->
  exists s3, on_button' (fresh files) = Some (Ok (Some (status_of s2)), s3)
    /\ vars s3 = vars s2 /\ fs s3 = fs s2
    /\ prompts (log s3) = prompts (log s2)
    /\ diagnostics (log s3) = diagnostics (log s2).
Proof.
  intros Hp Hs Hl. unfold on_button. rewrite Hp, Hs, Hl. cbn [negb].
  unfold status_of, final_report, bind, get_vars, st, emit, ret.
  destruct (is_valid (vars s2)); eexists; (split; [reflexivity|]); cbn [vars fs log];
    (split; [reflexivity|]); (split; [reflexivity|]); split; log_proj; reflexivity.
Qed.

Lemma on_button_no_input (files : gmap str str) :
  truthy math_problem_input = false ->
  exists s', on_button' (fresh files) = Some (Ok None, s')
    /\ prompts (log s') = [] /\ diagnostics (log s') = [].
Proof.
  intros Hp. unfold on_button. rewrite Hp. cbn [negb].
  eexists. split; [reflexivity|]. split; reflexivity.
Qed.

(** Every press of the button ends, and the prompts and diagnostics it
    leaves in the log form a feedback chain. *)
Lemma on_button_chain (files : gmap str str) :
  exists r s', on_button' (fresh files) = Some (r, s')
    /\ feedback_chain math_problem_input (prompts (log s')) (diagnostics (log s'))
    /\ outputs_from_verifier env (diagnostics (log s')).
Proof.
  destruct (truthy math_problem_input) eqn:Hp.
  - destruct (loop_inv_start files) as (s1 & Hs & Hv & _ & Hinv).
    destruct (while_loop_total max_attempts s1) as [s2 Hl]; [lia|].
    destruct (on_button_run files s1 s2 Hp Hs Hl) as (s3 & E & _ & _ & HP & HD).
    exists (Ok (Some (status_of s2))), s3. split; [done|]. rewrite HP, HD.
    by eapply while_loop_chain.
  - destruct (on_button_no_input files Hp) as (s' & E & HP & HD).
    exists (Ok None), s'. split; [done|]. rewrite HP, HD.
    split; [by intros [|k] p | by intros k d].
Qed.

Lemma build_prompt_occurs (d : str) : occurs d (build_prompt math_problem_input d).
Proof.
  unfold build_prompt. generalize (prompt_base math_problem_input). intros base.
  destruct d as [|c d]; cbn [truthy].
  - exists 0, [], base. split; reflexivity.
  - exists (length (base ++ feedback_intro)), (base ++ feedback_intro), feedback_outro.
    split; [|reflexivity]. apply app_assoc.
Qed.

(** ** The controller: claims C3, C4, C5 and C9 *)

(** C3. With [max_attempts = N], when in every cycle generation and the
    temporary file work and Lean reports the proof invalid, the run makes
    exactly N attempts (N chat calls, [attempt = N] at the end) and ends
    with status [Failed]. *)
Theorem all_invalid_exhausts_budget (files : gmap str str)
  (Hproblem : truthy math_problem_input = true)
  (Hinvalid : forall k, 1 <= k <= max_attempts -> cycle_invalid (env k)) :
  exists s', on_button' (fresh files) = Some (Ok (Some Failed), s')
    /\ attempt (vars s') = max_attempts
    /\ length (prompts (log s')) = max_attempts.
Proof.
  destruct (loop_inv_start files) as (s1 & Hs & Hv & _ & _).
  destruct (while_loop_all_invalid max_attempts s1) as (s2 & Hl & Ha & Hva & HP).
  - by rewrite Hv.
  - rewrite Hv. simpl. lia.
  - lia.
  - intros k Hk. apply Hinvalid. lia.
  - destruct (on_button_run files s1 s2 Hproblem Hs Hl) as (s3 & E & Hv3 & _ & HP3 & _).
    exists s3. unfold status_of in E. rewrite Hva in E. split; [done|].
    rewrite Hv3, HP3, HP. split; [done|].
    assert (prompts (log s1) = []) as -> by (by inversion Hs).
    rewrite Hv. simpl. lia.
Qed.

(** C4. In every run, the prompt of attempt [k+1] contains, as a substring,
    the text [verify_lean_file] returned in attempt [k]. *)
Theorem feedback_propagation (files : gmap str str) :
  exists r s', on_button' (fresh files) = Some (r, s')
    /\ forall k p, prompts (log s') !! S k = Some p ->
         exists d, diagnostics (log s') !! k = Some d
           /\ d = snd (verdict_of (lean_run (env (S k))))
           /\ occurs d p.
Proof.
  destruct (on_button_chain files) as (r & s' & E & Hch & Hout).
  exists r, s'. split; [done|]. intros k p Hk.
  destruct (Hch (S k) p Hk) as (d & Hd & ->).
  exists d. split; [done|]. split; [by apply Hout | apply build_prompt_occurs].
Qed.

(** C5. When the first cycle works and Lean reports the proof valid, the
    run ends with status [Succeeded] after exactly one attempt: one chat
    call, [attempt = 1] at the end. *)
Theorem first_valid_one_attempt (files : gmap str str)
  (content : str) (u : unit) (stdout : str)
  (Hproblem : truthy math_problem_input = true)
  (Hbudget : 1 <= max_attempts)
  (Hchat : chat_reply (env 1) = Ok content)
  (Hwrite : tmp_write (env 1) = Ok u)
  (Hlean : lean_run (env 1) = Ok stdout) :
  exists s', on_button' (fresh files) = Some (Ok (Some Succeeded), s')
    /\ attempt (vars s') = 1
    /\ length (prompts (log s')) = 1.
Proof.
  destruct (loop_inv_start files) as (s1 & Hs & Hv & _ & _).
  assert (prompts (log s1) = []) as HP1 by (by inversion Hs).
  assert (attempt (vars s1) = 0) as Ha1 by (by rewrite Hv).
  rewrite <- Ha1 in Hchat, Hwrite, Hlean.
  destruct (iteration_verified s1 content u Hchat Hwrite) as (s2 & E2 & Hv2 & _ & Hp2 & _).
  rewrite Hlean in Hv2. simpl in Hv2.
  assert (while_loop' max_attempts s1 = Some (Ok tt, s2)) as Hl.
  { apply while_loop_stops_on_valid; [done | lia | by rewrite Hv | done | by rewrite Hv2]. }
  destruct (on_button_run files s1 s2 Hproblem Hs Hl) as (s3 & E & Hv3 & _ & HP3 & _).
  exists s3. unfold status_of in E. rewrite Hv2 in E. simpl in E. split; [done|].
  rewrite Hv3, HP3, Hp2, HP1, Hv2, Ha1. by split.
Qed.

(** C9. In every run, the first prompt is built from the problem statement
    alone, and the prompt of attempt [k+1] is built from the problem
    statement and the diagnostic of attempt [k] alone: no earlier diagnostic
    enters it. *)
Theorem feedback_single_diagnostic (files : gmap str str) :
  exists r s', on_button' (fresh files) = Some (r, s')
    /\ forall k p, prompts (log s') !! k = Some p ->
         match k with
         | O => p = build_prompt math_problem_input []
         | S k' => exists d, diagnostics (log s') !! k' = Some d
                     /\ p = build_prompt math_problem_input d
         end.
Proof.
  destruct (on_button_chain files) as (r & s' & E & Hch & _).
  exists r, s'. split; [done|]. exact Hch.
Qed.

End Run.

Lemma all_invalid_exhausts_budget_witness :
  truthy sample_problem = true
  /\ (forall k, 1 <= k <= reference_max_attempts -> cycle_invalid (env_always_invalid k))
  /\ exists s',
       run_reference env_always_invalid = Some (Ok (Some Failed), s')
       /\ attempt (vars s') = 3
       /\ length (prompts (log s')) = 3.
Proof.
  assert (forall k, 1 <= k <= reference_max_attempts -> cycle_invalid (env_always_invalid k))
    as Hinvalid.
  { intros k _. unfold cycle_invalid, env_always_invalid. simpl.
    eexists _, _, _, _. split; [reflexivity|]. split; reflexivity. }
  split; [reflexivity|]. split; [exact Hinvalid|].
  exact (all_invalid_exhausts_budget default_api_base [] default_model sample_problem
           reference_max_attempts env_always_invalid ∅ eq_refl Hinvalid).
Defined.

Lemma first_valid_one_attempt_witness :
  truthy sample_problem = true
  /\ 1 <= reference_max_attempts
  /\ chat_reply (env_first_valid 1) = Ok sample_reply
  /\ tmp_write (env_first_valid 1) = Ok tt
  /\ lean_run (env_first_valid 1) = Ok (lit "ok")
  /\ exists s',
       run_reference env_first_valid = Some (Ok (Some Succeeded), s')
       /\ attempt (vars s') = 1
       /\ length (prompts (log s')) = 1.
Proof.
  assert (1 <= reference_max_attempts) as Hbudget by (unfold reference_max_attempts; lia).
  split; [reflexivity|]. split; [exact Hbudget|].
  split; [reflexivity|]. split; [reflexivity|]. split; [reflexivity|].
  exact (first_valid_one_attempt default_api_base [] default_model sample_problem
           reference_max_attempts env_first_valid ∅ sample_reply tt (lit "ok")
           eq_refl Hbudget eq_refl eq_refl eq_refl).
Defined.

(** ** Where the code departs from the claims: C1 and C2 *)

(** C1. The code at a run without a [lean] executable: the first attempt
    ends in [FileNotFoundError] inside [verify_lean_file], which turns it
    into an ordinary [False] verdict; the loop goes on and the run ends
    [Failed] only after all three attempts, with three chat calls. *)
Theorem tool_not_found_retried :
  lean_run (env_no_lean 1)
    = Raise (FileNotFoundError (lit "[Errno 2] No such file or directory: 'lean'"))
  /\ exists s',
       run_reference env_no_lean = Some (Ok (Some Failed), s')
       /\ attempt (vars s') = 3
       /\ length (prompts (log s')) = 3
       /\ diagnostics (log s') = [msg_no_lean; msg_no_lean; msg_no_lean].
Proof.
  split; [reflexivity|]. eexists. split; [vm_compute; reflexivity|].
  split; [reflexivity|]. split; reflexivity.
Qed.

(** C2. The code at a run in which writing the temporary file raises: the
    file was created by [NamedTemporaryFile(delete=False)], the handler
    leaves the loop without [os.remove], and the file is still on disk when
    the run has ended. *)
Theorem temp_file_leaked :
  exists s',
    run_reference env_write_fails = Some (Ok (Some Failed), s')
    /\ attempt (vars s') = 1
    /\ fs s' !! sample_path 1 = Some [].
Proof.
  eexists. split; [vm_compute; reflexivity|]. split; [reflexivity|].
  vm_compute. reflexivity.
Qed.

(** ** A run with two different errors *)

(** The third prompt quotes the second error and not the first. *)
Example two_errors_then_success :
  exists s' p3,
    run_reference env_two_errors = Some (Ok (Some Succeeded), s')
    /\ attempt (vars s') = 3
    /\ prompts (log s') !! 2 = Some p3
    /\ contains p3 (lit "type mismatch") = true
    /\ contains p3 (lit "unknown identifier foo") = false
    /\ fs s' = ∅.
Proof.
  eexists _, _. split; [vm_compute; reflexivity|]. split; [reflexivity|].
  split; [vm_compute; reflexivity|]. split; [vm_compute; reflexivity|].
  split; vm_compute; reflexivity.
Qed.

(** * Further properties of the code *)

(** ** More on the extractor *)

Lemma lstrip_fixed_iff (y : str) :
  lstrip y = y <-> match y with [] => True | c :: _ => isspace c = false end.
Proof.
  destruct y as [|c y]; simpl; [done|].
  destruct (isspace c) eqn:E; [|done]. split; [|done].
  intros H. destruct (lstrip_suffix y) as [ws Ews]. rewrite H in Ews.
  apply (f_equal length) in Ews. rewrite length_app in Ews. simpl in Ews. lia.
Qed.

Lemma lstrip_idemp (s : str) : lstrip (lstrip s) = lstrip s.
Proof.
  induction s as [|c s IH]; simpl; [done|].
  destruct (isspace c) eqn:E; [done|]. simpl. by rewrite E.
Qed.

Lemma rstrip_fixed_iff (x : str) :
  rstrip x = x <-> match rev x with [] => True | c :: _ => isspace c = false end.
Proof.
  rewrite <- lstrip_fixed_iff. unfold rstrip. split.
  - intros H. apply (f_equal (@rev N)) in H. by rewrite rev_involutive in H.
  - intros H. by rewrite H, rev_involutive.
Qed.

Lemma rstrip_idemp (s : str) : rstrip (rstrip s) = rstrip s.
Proof. unfold rstrip. by rewrite rev_involutive, lstrip_idemp. Qed.

Lemma rstrip_lstrip_fixed (t : str) : rstrip t = t -> rstrip (lstrip t) = lstrip t.
Proof.
  intros Ht. apply rstrip_fixed_iff. apply rstrip_fixed_iff in Ht.
  destruct (lstrip_suffix t) as [ws E].
  destruct (rev (lstrip t)) as [|c r] eqn:Er; [done|].
  rewrite E, rev_app_distr, Er in Ht. exact Ht.
Qed.

Lemma strip_idemp (s : str) : strip (strip s) = strip s.
Proof.
  unfold strip. rewrite rstrip_lstrip_fixed by apply rstrip_idemp.
  apply lstrip_idemp.
Qed.

Lemma has_block_cut (g : str) :
  has_block g ->
  exists i j, first_at fence_lean g i /\ first_from fence g (i + 7) j
    /\ extract g = (strip (take (j - (i + 7)) (drop (i + 7) g)), false).
Proof.
  intros (i0 & j0 & Hi0 & Hle & Hj0). change (length fence_lean) with 7 in Hle.
  destruct (extract_cases g) as [[Hno _]|[(i & Hi & Hno & _)|H]]; [| |exact H].
  - exfalso. apply Hno. by exists i0.
  - exfalso. destruct Hi as (_ & _ & Hmin). specialize (Hmin i0 ltac:(lia) Hi0).
    apply (Hno j0); [lia | done].
Qed.

(** X10. When the text holds an opening marker with a closing marker after
    it, what is extracted is trimmed, holds no marker, and no warning is
    raised. *)
Theorem extract_block_clean (g : str) (Hblock : has_block g) :
  strip (fst (extract g)) = fst (extract g)
  /\ ~ occurs fence (fst (extract g))
  /\ snd (extract g) = false.
Proof.
  destruct (has_block_cut g Hblock) as (i & j & Hi & Hj & ->). simpl.
  split; [apply strip_idemp|]. split; [|done].
  apply strip_no_occurs. by apply between_no_fence.
Qed.

Lemma has_block_two_blocks : has_block two_blocks.
Proof.
  exists 18, 54. split; [|split; [simpl; lia|]]; apply occurs_at_drop; split;
    try (vm_compute; lia); vm_compute; reflexivity.
Qed.

Lemma extract_block_clean_witness :
  has_block two_blocks
  /\ strip (fst (extract two_blocks)) = fst (extract two_blocks)
  /\ ~ occurs fence (fst (extract two_blocks))
  /\ snd (extract two_blocks) = false.
Proof.
  split; [exact has_block_two_blocks|].
  exact (extract_block_clean two_blocks has_block_two_blocks).
Defined.

(** X11. The extracted text is always a contiguous part of the generated
    text: extraction removes text around the proof and adds none. *)
Theorem extract_infix (g : str) : exists a b, g = a ++ fst (extract g) ++ b.
Proof.
  destruct (extract_cases g) as [[_ ->]|[(i & _ & _ & ->)|(i & j & Hi & Hj & ->)]]; simpl.
  - exists [], []. by rewrite app_nil_r.
  - exists [], []. by rewrite app_nil_r.
  - destruct (strip_infix (take (j - (i + 7)) (drop (i + 7) g))) as (a & b & E).
    exists (take (i + 7) g ++ a), (b ++ drop (j - (i + 7)) (drop (i + 7) g)).
    rewrite <- !app_assoc. rewrite (app_assoc (strip _)), (app_assoc a), <- E.
    by rewrite !take_drop.
Qed.


Lemma no_fence_in_tag (tag : str) : Forall tag_char tag -> ~ occurs fence tag.
Proof.
  intros Htag (i & pre & post & E & _).
  rewrite Forall_forall in Htag.
  assert (96%N ∈ tag) as Hin.
  { rewrite E, !elem_of_app. right. left. unfold fence. apply elem_of_cons. by left. }
  by destruct (Htag 96%N Hin) as [_ H].
Qed.

Lemma first_closing_tagged (tag body : str) :
  Forall tag_char tag -> ~ occurs fence body ->
  first_at fence ((tag ++ nl ++ body ++ nl) ++ fence) (length (tag ++ nl ++ body ++ nl)).
Proof.
  intros Htag Hno. split; [lia|]. split.
  - exists (tag ++ nl ++ body ++ nl), []. by rewrite app_nil_r.
  - intros j _ Hj.
    replace ((tag ++ nl ++ body ++ nl) ++ fence)
      with (tag ++ 10%N :: (body ++ 10%N :: fence)) in Hj
      by (rewrite <- !app_assoc; reflexivity).
    apply occurs_at_split_char in Hj as [Hj|[H1 Hj]]; [| |apply backtick_not_nl|done].
    + exfalso. apply (no_fence_in_tag tag Htag). by exists j.
    + apply occurs_at_split_char in Hj as [Hj|[H2 Hj]]; [| |apply backtick_not_nl|done].
      * exfalso. apply Hno. eexists. exact Hj.
      * rewrite !length_app. simpl in *. lia.
Qed.

Lemma strip_tagged (tag body : str) :
  Forall tag_char tag -> tag <> [] -> strip body = body -> body <> [] ->
  strip (tag ++ nl ++ body ++ nl) = tag ++ nl ++ body.
Proof.
  intros Htag Hne E Hb. apply strip_fixed in E as [_ Er].
  assert (rstrip (tag ++ nl ++ body ++ nl) = tag ++ nl ++ body) as Hr.
  { unfold rstrip.
    replace (rev (tag ++ nl ++ body ++ nl)) with (10%N :: rev body ++ nl ++ rev tag)
      by (rewrite !rev_app_distr; simpl; by rewrite <- !app_assoc).
    change (lstrip (10%N :: rev body ++ nl ++ rev tag)) with (lstrip (rev body ++ nl ++ rev tag)).
    rewrite lstrip_app_fixed.
    - rewrite !rev_app_distr, !rev_involutive. simpl. by rewrite <- !app_assoc.
    - apply rstrip_fixed_iff in Er. by apply lstrip_fixed_iff.
    - intros Hnil. apply (f_equal length) in Hnil. rewrite length_rev in Hnil.
      destruct body; [done | simpl in Hnil; lia]. }
  unfold strip. rewrite Hr. apply lstrip_app_fixed; [|done].
  apply lstrip_fixed_iff. destruct tag as [|c tag]; [done|].
  apply Forall_cons in Htag as [[Hc _] _]. exact Hc.
Qed.

(** X12. The opening marker is matched as the seven characters of
    [```lean]: when more tag characters follow it (as in [```lean4]), they
    stay at the head of the extracted proof. *)
Theorem extract_keeps_tag_suffix (tag body : str)
  (Htag : Forall tag_char tag) (Hne : tag <> [])
  (Htrim : strip body = body) (Hbody : body <> []) (Hno : ~ occurs fence body) :
  extract (fence_lean ++ tag ++ nl ++ body ++ nl ++ fence) = (tag ++ nl ++ body, false).
Proof.
  rewrite (extract_between _ 0 (7 + length (tag ++ nl ++ body ++ nl))).
  - change (0 + 7) with 7.
    replace (7 + length (tag ++ nl ++ body ++ nl) - 7)
      with (length (tag ++ nl ++ body ++ nl)) by lia.
    change (drop 7 (fence_lean ++ tag ++ nl ++ body ++ nl ++ fence))
      with (tag ++ nl ++ body ++ nl ++ fence).
    replace (tag ++ nl ++ body ++ nl ++ fence) with ((tag ++ nl ++ body ++ nl) ++ fence)
      by (by rewrite <- !app_assoc).
    rewrite take_app_length. by rewrite strip_tagged.
  - apply first_at_0.
  - apply (first_from_shift fence _ 7).
    + rewrite length_app. change (length fence_lean) with 7. lia.
    + change (drop 7 (fence_lean ++ tag ++ nl ++ body ++ nl ++ fence))
        with (tag ++ nl ++ body ++ nl ++ fence).
      replace (tag ++ nl ++ body ++ nl ++ fence) with ((tag ++ nl ++ body ++ nl) ++ fence)
        by (by rewrite <- !app_assoc).
      by apply first_closing_tagged.
Qed.

Lemma extract_keeps_tag_suffix_witness :
  Forall tag_char (lit "4") /\ lit "4" <> []
  /\ strip (lit "theorem a : True := trivial") = lit "theorem a : True := trivial"
  /\ lit "theorem a : True := trivial" <> []
  /\ ~ occurs fence (lit "theorem a : True := trivial")
  /\ extract (fence_lean ++ lit "4" ++ nl ++ lit "theorem a : True := trivial" ++ nl ++ fence)
     = (lit "4" ++ nl ++ lit "theorem a : True := trivial", false).
Proof.
  assert (Forall tag_char (lit "4")) as Htag.
  { apply Forall_cons. split; [split; [reflexivity | discriminate] | apply Forall_nil]. done. }
  assert (lit "4" <> []) as Hne by discriminate.
  assert (lit "theorem a : True := trivial" <> []) as Hb by discriminate.
  assert (~ occurs fence (lit "theorem a : True := trivial")) as Hno.
  { intros Ho. apply contains_occurs in Ho. vm_compute in Ho. discriminate. }
  split; [exact Htag|]. split; [exact Hne|]. split; [reflexivity|].
  split; [exact Hb|]. split; [exact Hno|].
  exact (extract_keeps_tag_suffix (lit "4") (lit "theorem a : True := trivial")
           Htag Hne eq_refl Hb Hno).
Defined.

(** ** More on the verifier adapter *)


(** ** Effects of the loop *)

Lemma lean_calls_app (l1 l2 : list event) :
  lean_calls (l1 ++ l2) = lean_calls l1 ++ lean_calls l2.
Proof. induction l1 as [|e l1 IH]; [done|]. destruct e; simpl; by rewrite ?IH. Qed.

Lemma tmp_creates_app (l1 l2 : list event) :
  tmp_creates (l1 ++ l2) = tmp_creates l1 ++ tmp_creates l2.
Proof. induction l1 as [|e l1 IH]; [done|]. destruct e; simpl; by rewrite ?IH. Qed.

Lemma tmp_writes_app (l1 l2 : list event) :
  tmp_writes (l1 ++ l2) = tmp_writes l1 ++ tmp_writes l2.
Proof. induction l1 as [|e l1 IH]; [done|]. destruct e; simpl; by rewrite ?IH. Qed.

Lemma removals_app (l1 l2 : list event) :
  removals (l1 ++ l2) = removals l1 ++ removals l2.
Proof. induction l1 as [|e l1 IH]; [done|]. destruct e; simpl; by rewrite ?IH. Qed.


Ltac effects_proj :=
  rewrite ?prompts_app, ?diagnostics_app, ?lean_calls_app, ?tmp_creates_app,
    ?tmp_writes_app, ?removals_app;
  simpl; rewrite ?app_nil_r.

Section RunEffects.

Variables openai_api_base openai_api_key openai_model : str.
Variable math_problem_input : str.
Variable max_attempts : nat.
Variable env : Env.

#[local] Abbreviation iteration' :=
  (iteration openai_model math_problem_input max_attempts env).
#[local] Abbreviation while_loop' :=
  (while_loop openai_model math_problem_input max_attempts env).
#[local] Abbreviation on_button' :=
  (on_button openai_api_base openai_api_key openai_model math_problem_input
             max_attempts env).
#[local] Abbreviation cycle_of s := (env (S (attempt (vars s)))).

(** Every iteration either verifies a proof and goes on, or is cut short by
    an exception of the chat call or of the temporary file and leaves the
    loop. *)
Lemma iteration_effects (s : State) :
  (exists s', iteration' s = (Ok Continue, s')
     /\ verified_step math_problem_input (cycle_of s) s s')
  \/ (exists s', iteration' s = (Ok Break, s')
     /\ aborted_step math_problem_input (cycle_of s) s s').
Proof.
  destruct (chat_reply (cycle_of s)) as [content|e] eqn:Hc.
  - destruct (tmp_write (cycle_of s)) as [u|e] eqn:Hw.
    + left. unfold verified_step. run_monad. rewrite Hc, Hw.
      destruct (extract content) as [code malformed] eqn:E.
      run_monad.
      destruct malformed; run_monad.
      all: erewrite verify_existing by apply lookup_insert_eq.
      all: destruct (verdict_of _) as [[] out]; run_monad.
      all: rewrite lookup_insert_eq.
      all: eexists; split; [reflexivity|]; cbn [vars fs log].
      all: exists content, u; split; [reflexivity|]; split; [reflexivity|].
      all: rewrite ?E; cbn [fst snd].
      all: split; [reflexivity|]; split; [by rewrite insert_insert_eq, delete_insert_eq|].
      all: repeat split; effects_proj; reflexivity.
    + right. unfold aborted_step. run_monad. rewrite Hc, Hw.
      destruct (extract content) as [code malformed] eqn:E.
      run_monad.
      destruct malformed, e; run_monad.
      all: eexists; split; [reflexivity|]; cbn [vars fs log].
      all: do 7 (split; [effects_proj; reflexivity|]).
      all: right; split; [by eexists _, _|]; split; effects_proj; reflexivity.
  - right. unfold aborted_step. run_monad. rewrite Hc.
    destruct e; run_monad.
    all: eexists; split; [reflexivity|]; cbn [vars fs log].
    all: do 7 (split; [effects_proj; reflexivity|]).
    all: left; split; [by eexists|]; split; effects_proj; reflexivity.
Qed.

(** Induction over the iterations of the loop: [I] holds whenever the
    condition is evaluated, [Q] when the loop is left. *)
Lemma while_loop_rule (I Q : State -> Prop) :
  (forall s0 s1, attempt (vars s0) < max_attempts -> is_valid (vars s0) = false ->
     I s0 -> verified_step math_problem_input (cycle_of s0) s0 s1 -> I s1) ->
  (forall s0 s1, attempt (vars s0) < max_attempts -> is_valid (vars s0) = false ->
     I s0 -> aborted_step math_problem_input (cycle_of s0) s0 s1 -> Q s1) ->
  (forall s0, I s0 -> Q s0) ->
  forall fuel s r s', I s -> while_loop' fuel s = Some (r, s') -> Q s' /\ r = Ok tt.
Proof.
  intros Hcont Hbreak Hexit fuel.
  induction fuel as [|fuel IH]; intros s r s' HI; simpl.
  - destruct ((attempt (vars s) <? max_attempts) && negb (is_valid (vars s))); [done|].
    intros [= <- <-]. split; [by apply Hexit | done].
  - destruct ((attempt (vars s) <? max_attempts) && negb (is_valid (vars s))) eqn:Ec.
    + apply andb_true_iff in Ec as [Ha Ev].
      apply Nat.ltb_lt in Ha. apply negb_true_iff in Ev.
      destruct (iteration_effects s) as [(s1 & -> & Hs)|(s1 & -> & Hs)].
      * apply IH. by eapply Hcont.
      * intros [= <- <-]. split; [by eapply Hbreak | done].
    + intros [= <- <-]. split; [by apply Hexit | done].
Qed.

Lemma on_button_empty (s : State) :
  truthy math_problem_input = false ->
  on_button' s =
    Some (Ok None, mkState (vars s) (fs s) (log s ++ [St (final_banner None)])).
Proof. intros Hp. unfold on_button. by rewrite Hp. Qed.

Lemma on_button_started (files : gmap str str) (s2 : State) :
  truthy math_problem_input = true ->
  while_loop' max_attempts (started openai_api_base openai_api_key files) = Some (Ok tt, s2) ->
  exists s3,
    on_button' (fresh files) = Some (Ok (Some (status_of s2)), s3)
    /\ same_effects s2 s3
    /\ last (log s3) = Some (St (final_banner (Some (status_of s2)))).
Proof.
  intros Hp Hl. unfold on_button. rewrite Hp. cbn [negb].
  change (start_run openai_api_base openai_api_key (fresh files))
    with (@Ok unit tt, started openai_api_base openai_api_key files).
  cbn iota. rewrite Hl.
  unfold status_of, final_report, same_effects, bind, get_vars, st, emit, ret.
  destruct (is_valid (vars s2)); eexists; (split; [reflexivity|]); cbn [vars fs log];
    (split; [|by rewrite ?app_assoc, last_snoc]);
    repeat split; effects_proj; reflexivity.
Qed.

(** Every run that starts goes through the loop to the final report. *)
Lemma run_rule (I Q : State -> Prop) (files : gmap str str) :
  truthy math_problem_input = true ->
  (forall s0 s1, attempt (vars s0) < max_attempts -> is_valid (vars s0) = false ->
     I s0 -> verified_step math_problem_input (cycle_of s0) s0 s1 -> I s1) ->
  (forall s0 s1, attempt (vars s0) < max_attempts -> is_valid (vars s0) = false ->
     I s0 -> aborted_step math_problem_input (cycle_of s0) s0 s1 -> Q s1) ->
  (forall s0, I s0 -> Q s0) ->
  I (started openai_api_base openai_api_key files) ->
  exists s2 s3,
    Q s2
    /\ on_button' (fresh files) = Some (Ok (Some (status_of s2)), s3)
    /\ same_effects s2 s3
    /\ last (log s3) = Some (St (final_banner (Some (status_of s2)))).
Proof.
  intros Hp Hcont Hbreak Hexit HI.
  destruct (while_loop_total openai_model math_problem_input max_attempts env
              max_attempts (started openai_api_base openai_api_key files))
    as [s2 Hl]; [simpl; lia|].
  destruct (while_loop_rule I Q Hcont Hbreak Hexit _ _ _ _ HI Hl) as [HQ _].
  destruct (on_button_started files s2 Hp Hl) as (s3 & E & Hsame & Hlast).
  by exists s2, s3.
Qed.

(** X5. The handler never raises, and the last message on the page tells
    the outcome: the input error when the problem statement is empty, the
    final success message exactly when the last verdict is valid, the final
    failure messages otherwise. *)
Theorem final_banner_matches (files : gmap str str) :
  exists r s',
    on_button' (fresh files) = Some (Ok r, s')
    /\ last (log s') = Some (St (final_banner r))
    /\ (r = None <-> math_problem_input = [])
    /\ (r = Some Succeeded <-> is_valid (vars s') = true).
Proof.
  destruct (truthy math_problem_input) eqn:Hp.
  - destruct (run_rule (fun _ => True) (fun _ => True) files Hp) as
      (s2 & s3 & _ & E & (Hv & _) & Hlast); [done..|].
    exists (Some (status_of s2)), s3. split; [done|]. split; [done|]. split.
    + split; [done|]. intros ->. done.
    + rewrite Hv. unfold status_of. destruct (is_valid (vars s2)); split; done.
  - exists None, (mkState (vars (fresh files)) (fs (fresh files))
                          (log (fresh files) ++ [St (final_banner None)])).
    split; [by apply on_button_empty|]. split; [done|]. split.
    + split; [|done]. intros _. by destruct math_problem_input.
    + split; done.
Qed.

(** X6. In every run the loop makes at most [max_attempts] chat calls, one
    per attempt; the files removed are the files written, in the same order,
    each one run once through [lean --run]; and at most the last attempt ends
    without a Lean run. *)
Theorem run_accounting (files : gmap str str) :
  exists r s',
    on_button' (fresh files) = Some (r, s')
    /\ attempt (vars s') <= max_attempts
    /\ length (prompts (log s')) = attempt (vars s')
    /\ removals (log s') = (tmp_writes (log s')).*1
    /\ lean_calls (log s') = lean_argv <$> removals (log s')
    /\ length (removals (log s')) = length (diagnostics (log s'))
    /\ length (removals (log s')) <= length (prompts (log s'))
         <= S (length (removals (log s'))).
Proof.
  destruct (truthy math_problem_input) eqn:Hp.
  - destruct (run_rule
      (fun s => attempt (vars s) <= max_attempts
                /\ length (prompts (log s)) = attempt (vars s)
                /\ length (removals (log s)) = attempt (vars s)
                /\ length (diagnostics (log s)) = attempt (vars s)
                /\ removals (log s) = (tmp_writes (log s)).*1
                /\ lean_calls (log s) = lean_argv <$> removals (log s))
      (fun s => attempt (vars s) <= max_attempts
                /\ length (prompts (log s)) = attempt (vars s)
                /\ removals (log s) = (tmp_writes (log s)).*1
                /\ lean_calls (log s) = lean_argv <$> removals (log s)
                /\ length (removals (log s)) = length (diagnostics (log s))
                /\ length (removals (log s)) <= length (prompts (log s))
                     <= S (length (removals (log s))))
      files Hp) as (s2 & s3 & HQ & E & (Hv & _ & HP & HD & HL & _ & HW & HR) & _).
    + intros s0 s1 Ha _ (_ & H1 & H2 & H3 & H4 & H5)
        (content & u & _ & _ & Hv & _ & Hp1 & Hd1 & Hl1 & _ & Hw1 & Hr1).
      rewrite Hv, Hp1, Hd1, Hl1, Hw1, Hr1, !length_app, fmap_app, fmap_app. simpl.
      repeat split; try lia; congruence.
    + intros s0 s1 Ha _ (_ & H1 & H2 & H3 & H4 & H5)
        (Ha1 & _ & Hp1 & Hd1 & Hl1 & Hw1 & Hr1 & _).
      rewrite Ha1, Hp1, Hd1, Hl1, Hw1, Hr1, !length_app. simpl.
      repeat split; try lia; congruence.
    + intros s0 (H0 & H1 & H2 & H3 & H4 & H5). repeat split; try lia; congruence.
    + simpl. repeat split; lia.
    + exists (Ok (Some (status_of s2))), s3. split; [done|].
      by rewrite Hv, HP, HD, HL, HW, HR.
  - eexists _, _. split; [by apply on_button_empty|]. simpl. repeat split; lia.
Qed.

(** X7. The file written in attempt [k] is the temporary file of that
    attempt and holds the text extracted from that attempt's chat reply. *)
Theorem written_files (files : gmap str str) :
  exists r s',
    on_button' (fresh files) = Some (r, s')
    /\ forall k path text, tmp_writes (log s') !! k = Some (path, text) ->
         path = tmp_name (env (S k))
         /\ exists content, chat_reply (env (S k)) = Ok content
              /\ text = fst (extract content).
Proof.
  set (P := fun (W : list (str * str)) =>
    forall k path text, W !! k = Some (path, text) ->
      path = tmp_name (env (S k))
      /\ exists content, chat_reply (env (S k)) = Ok content /\ text = fst (extract content)).
  destruct (truthy math_problem_input) eqn:Hp.
  - destruct (run_rule
      (fun s => length (tmp_writes (log s)) = attempt (vars s) /\ P (tmp_writes (log s)))
      (fun s => P (tmp_writes (log s)))
      files Hp) as (s2 & s3 & HQ & E & (_ & _ & _ & _ & _ & _ & HW & _) & _).
    + intros s0 s1 _ _ [Hlen HP]
        (content & u & Hc & _ & Hv & _ & _ & _ & _ & _ & Hw1 & _).
      rewrite Hw1, Hv, length_app. simpl. split; [lia|].
      intros k path text Hk. apply lookup_snoc_Some in Hk as [[_ Hk]|[-> [= <- <-]]].
      * by apply HP.
      * rewrite Hlen. split; [done|]. by exists content.
    + intros s0 s1 _ _ [_ HP] (_ & _ & _ & _ & _ & Hw1 & _). by rewrite Hw1.
    + by intros s0 [_ HP].
    + split; [done|]. by intros k path text.
    + exists (Ok (Some (status_of s2))), s3. split; [done|]. by rewrite HW.
  - eexists _, _. split; [by apply on_button_empty|]. by intros k path text.
Qed.


(** X4. A run ends [Succeeded] only if Lean exited with code zero in the
    last attempt, on the text extracted from that attempt's chat reply. *)
Theorem succeeded_sound (files : gmap str str) (s' : State)
  (Hrun : on_button' (fresh files) = Some (Ok (Some Succeeded), s')) :
  1 <= attempt (vars s') <= max_attempts
  /\ exists content stdout,
       chat_reply (env (attempt (vars s'))) = Ok content
       /\ lean_run (env (attempt (vars s'))) = Ok stdout
       /\ generated_proof_code (vars s') = fst (extract content)
       /\ lean_output (vars s') = msg_valid ++ stdout.
Proof.
  set (A := fun (l : Locals) =>
    1 <= attempt l
    /\ exists content stdout,
         chat_reply (env (attempt l)) = Ok content
         /\ lean_run (env (attempt l)) = Ok stdout
         /\ generated_proof_code l = fst (extract content)
         /\ lean_output l = msg_valid ++ stdout).
  set (I := fun s => attempt (vars s) <= max_attempts
                     /\ (is_valid (vars s) = true -> A (vars s))).
  destruct (truthy math_problem_input) eqn:Hp.
  - destruct (run_rule I I files Hp) as (s2 & s3 & [Hle HA] & E & (Hv & _) & _).
    + intros s0 s1 Ha _ _ (content & u & Hc & _ & Hv & _).
      unfold I, A. rewrite Hv. cbn [attempt is_valid generated_proof_code lean_output].
      split; [lia|]. intros Hvalid.
      split; [lia|]. exists content.
      destruct (lean_run (cycle_of s0)) as [stdout|[]] eqn:Hr; try done.
      by exists stdout.
    + intros s0 s1 Ha Hf _ (Ha1 & Hv1 & _).
      unfold I. split; [lia|]. rewrite Hv1, Hf. done.
    + done.
    + unfold I. split; [simpl; lia | done].
    + rewrite E in Hrun. injection Hrun as Hst <-.
      unfold status_of in Hst. destruct (is_valid (vars s2)) eqn:Hval; [|done].
      rewrite Hv. destruct (HA eq_refl) as [H1 H2]. split; [lia | done].
  - rewrite on_button_empty in Hrun by done. done.
Qed.

Lemma build_prompt_has_problem (fb : str) :
  prompt_base math_problem_input `prefix_of` build_prompt math_problem_input fb
  /\ occurs math_problem_input (build_prompt math_problem_input fb).
Proof.
  assert (prompt_base math_problem_input `prefix_of` build_prompt math_problem_input fb)
    as Hpre.
  { unfold build_prompt. destruct (truthy fb); [by eexists | by exists []; rewrite app_nil_r]. }
  split; [done|]. destruct Hpre as [t ->].
  eexists. apply occurs_at_app_r. unfold prompt_base.
  do 4 eapply occurs_at_app_l. by eexists [], _.
Qed.

(** X9. Every prompt of every run starts with the fixed instructions and
    contains the problem statement as it was entered. *)
Theorem prompts_carry_problem (files : gmap str str) :
  exists r s',
    on_button' (fresh files) = Some (r, s')
    /\ forall k p, prompts (log s') !! k = Some p ->
         prompt_base math_problem_input `prefix_of` p
         /\ occurs math_problem_input p.
Proof.
  destruct (on_button_chain openai_api_base openai_api_key openai_model
              math_problem_input max_attempts env files) as (r & s' & E & Hch & _).
  exists r, s'. split; [done|]. intros k p Hk. specialize (Hch k p Hk).
  destruct k as [|k]; [subst p | destruct Hch as (d & _ & ->)];
    apply build_prompt_has_problem.
Qed.

(** A run of [n] cycles in which Lean rejects the proof takes the loop [n]
    iterations further. *)
Lemma while_loop_invalid_prefix (n : nat) (s : State) :
  is_valid (vars s) = false ->
  attempt (vars s) + n <= max_attempts ->
  (forall j, attempt (vars s) < j <= attempt (vars s) + n -> cycle_invalid (env j)) ->
  exists s1,
    (forall fuel, while_loop' (n + fuel) s = while_loop' fuel s1)
    /\ attempt (vars s1) = attempt (vars s) + n
    /\ is_valid (vars s1) = false
    /\ length (prompts (log s1)) = length (prompts (log s)) + n
    /\ length (lean_calls (log s1)) = length (lean_calls (log s)) + n.
Proof.
  revert s. induction n as [|n IH]; intros s Hv Hle Henv.
  - exists s. repeat split; try done; lia.
  - destruct (Henv (S (attempt (vars s))) ltac:(lia))
      as (content & u & msg & stderr & Hc & Hw & Hr).
    destruct (iteration_effects s) as [(s1 & E & Hs)|(s1 & E & Hs)].
    + destruct Hs as (c' & u' & _ & _ & Hv1 & _ & Hp1 & _ & Hl1 & _).
      rewrite Hr in Hv1. simpl in Hv1.
      destruct (IH s1) as (s2 & Hloop & Ha2 & Hv2 & Hp2 & Hl2).
      * by rewrite Hv1.
      * rewrite Hv1. simpl. lia.
      * intros j Hj. apply Henv. rewrite Hv1 in Hj. simpl in Hj. lia.
      * exists s2. split.
        -- intros fuel. simpl.
           assert ((attempt (vars s) <? max_attempts) = true) as -> by (apply Nat.ltb_lt; lia).
           rewrite Hv, E. cbn [negb andb]. apply Hloop.
        -- rewrite Ha2, Hv2, Hp2, Hl2, Hp1, Hl1, Hv1, !length_app. simpl.
           repeat split; lia.
    + exfalso. destruct Hs as (_ & _ & _ & _ & _ & _ & _ & [([e He] & _)|((c' & e & _ & He) & _)]);
        congruence.
Qed.

Lemma started_prefix (files : gmap str str) (k : nat) :
  1 <= k <= max_attempts ->
  (forall j, 1 <= j < k -> cycle_invalid (env j)) ->
  exists s1,
    while_loop' max_attempts (started openai_api_base openai_api_key files)
      = while_loop' (S (max_attempts - k)) s1
    /\ attempt (vars s1) = k - 1
    /\ is_valid (vars s1) = false
    /\ length (prompts (log s1)) = k - 1
    /\ length (lean_calls (log s1)) = k - 1.
Proof.
  intros Hk Hbefore.
  destruct (while_loop_invalid_prefix (k - 1) (started openai_api_base openai_api_key files))
    as (s1 & Hloop & Ha & Hv & Hp & Hl).
  - done.
  - simpl. lia.
  - intros j Hj. apply Hbefore. simpl in Hj. lia.
  - exists s1. split.
    + rewrite <- Hloop. f_equal. lia.
    + simpl in *. repeat split; try done; lia.
Qed.

(** X2. When the chat call of attempt [k] raises, after [k-1] attempts that
    Lean rejected, the run ends [Failed] at attempt [k], whatever budget is
    left: [k] chat calls, [k-1] Lean runs. *)
Theorem chat_error_aborts (files : gmap str str) (k : nat) (e : exn)
  (Hproblem : truthy math_problem_input = true)
  (Hk : 1 <= k <= max_attempts)
  (Hbefore : forall j, 1 <= j < k -> cycle_invalid (env j))
  (Hchat : chat_reply (env k) = Raise e) :
  exists s',
    on_button' (fresh files) = Some (Ok (Some Failed), s')
    /\ attempt (vars s') = k
    /\ length (prompts (log s')) = k
    /\ length (lean_calls (log s')) = k - 1.
Proof.
  destruct (started_prefix files k Hk Hbefore) as (s1 & Hloop & Ha & Hv & Hp & Hl).
  assert (S (attempt (vars s1)) = k) as Hcycle by lia.
  destruct (iteration_effects s1) as [(s2 & E & Hs)|(s2 & E & Hs)].
  - exfalso. destruct Hs as (c' & u' & Hc & _). rewrite Hcycle in Hc. congruence.
  - destruct Hs as (Ha2 & Hv2 & Hp2 & _ & Hl2 & _).
    assert (while_loop' max_attempts (started openai_api_base openai_api_key files)
            = Some (Ok tt, s2)) as Hrun.
    { rewrite Hloop. simpl.
      assert ((attempt (vars s1) <? max_attempts) = true) as -> by (apply Nat.ltb_lt; lia).
      by rewrite Hv, E. }
    destruct (on_button_started files s2 Hproblem Hrun)
      as (s3 & E3 & (Hv3 & _ & HP3 & _ & HL3 & _) & _).
    exists s3. unfold status_of in E3. rewrite Hv2, Hv in E3. split; [done|].
    rewrite Hv3, HP3, HL3, Ha2, Hp2, Hl2, length_app. simpl. repeat split; lia.
Qed.

(** X3. When Lean rejects the proofs of attempts [1..k-1] and accepts the
    proof of attempt [k], the run ends [Succeeded] at attempt [k] with [k]
    chat calls and [k] Lean runs, and no further attempt is made. *)
Theorem success_at_attempt (files : gmap str str) (k : nat)
  (content : str) (u : unit) (stdout : str)
  (Hproblem : truthy math_problem_input = true)
  (Hk : 1 <= k <= max_attempts)
  (Hbefore : forall j, 1 <= j < k -> cycle_invalid (env j))
  (Hchat : chat_reply (env k) = Ok content)
  (Hwrite : tmp_write (env k) = Ok u)
  (Hlean : lean_run (env k) = Ok stdout) :
  exists s',
    on_button' (fresh files) = Some (Ok (Some Succeeded), s')
    /\ attempt (vars s') = k
    /\ length (prompts (log s')) = k
    /\ length (lean_calls (log s')) = k
    /\ generated_proof_code (vars s') = fst (extract content)
    /\ lean_output (vars s') = msg_valid ++ stdout.
Proof.
  destruct (started_prefix files k Hk Hbefore) as (s1 & Hloop & Ha & Hv & Hp & Hl).
  assert (S (attempt (vars s1)) = k) as Hcycle by lia.
  destruct (iteration_effects s1) as [(s2 & E & Hs)|(s2 & E & Hs)].
  - destruct Hs as (c' & u' & Hc & _ & Hv2 & _ & Hp2 & _ & Hl2 & _).
    rewrite Hcycle in Hc, Hv2. rewrite Hlean in Hv2. simpl in Hv2.
    assert (c' = content) as -> by congruence.
    assert (while_loop' max_attempts (started openai_api_base openai_api_key files)
            = Some (Ok tt, s2)) as Hrun.
    { rewrite Hloop. simpl.
      assert ((attempt (vars s1) <? max_attempts) = true) as -> by (apply Nat.ltb_lt; lia).
      rewrite Hv, E. cbn [negb andb]. apply while_loop_done.
      rewrite Hv2. simpl. apply andb_false_r. }
    destruct (on_button_started files s2 Hproblem Hrun)
      as (s3 & E3 & (Hv3 & _ & HP3 & _ & HL3 & _) & _).
    exists s3. unfold status_of in E3. rewrite Hv2 in E3. simpl in E3. split; [done|].
    rewrite Hv3, HP3, HL3, Hp2, Hl2, Hv2, !length_app. simpl. repeat split; lia.
  - exfalso.
    destruct Hs as (_ & _ & _ & _ & _ & _ & _ & [([e He] & _)|((c' & e & _ & He) & _)]);
      rewrite Hcycle in He; congruence.
Qed.

End RunEffects.

(** X1. With an empty problem statement, from any state, the handler only
    shows the input error: no chat call, no temporary file, no Lean run, and
    variables and files stay as they are. *)
Theorem no_input_no_run
  (openai_api_base openai_api_key openai_model : str) (max_attempts : nat) (env : Env)
  (s : State) :
  exists s',
    on_button openai_api_base openai_api_key openai_model [] max_attempts env s
      = Some (Ok None, s')
    /\ vars s' = vars s /\ fs s' = fs s
    /\ log s' = log s ++ [St (Error (lit "Veuillez décrire le problème mathématique."))]
    /\ prompts (log s') = prompts (log s)
    /\ tmp_creates (log s') = tmp_creates (log s)
    /\ lean_calls (log s') = lean_calls (log s).
Proof.
  eexists. split; [by apply on_button_empty|]. cbn [vars fs log].
  repeat split; effects_proj; reflexivity.
Qed.


Lemma succeeded_sound_witness :
  exists s',
    run_reference env_first_valid = Some (Ok (Some Succeeded), s')
    /\ 1 <= attempt (vars s') <= reference_max_attempts
    /\ exists content stdout,
         chat_reply (env_first_valid (attempt (vars s'))) = Ok content
         /\ lean_run (env_first_valid (attempt (vars s'))) = Ok stdout
         /\ generated_proof_code (vars s') = fst (extract content)
         /\ lean_output (vars s') = msg_valid ++ stdout.
Proof.
  assert (exists s', run_reference env_first_valid = Some (Ok (Some Succeeded), s'))
    as [s' E] by (eexists; vm_compute; reflexivity).
  exists s'. split; [exact E|].
  exact (succeeded_sound default_api_base [] default_model sample_problem
           reference_max_attempts env_first_valid ∅ s' E).
Defined.

Lemma chat_error_aborts_witness :
  truthy sample_problem = true
  /\ 1 <= 2 <= reference_max_attempts
  /\ (forall j, 1 <= j < 2 -> cycle_invalid (env_api_error j))
  /\ chat_reply (env_api_error 2) = Raise (APIError (lit "Connection error."))
  /\ exists s',
       run_reference env_api_error = Some (Ok (Some Failed), s')
       /\ attempt (vars s') = 2
       /\ length (prompts (log s')) = 2
       /\ length (lean_calls (log s')) = 1.
Proof.
  assert (1 <= 2 <= reference_max_attempts) as Hk by (unfold reference_max_attempts; lia).
  assert (forall j, 1 <= j < 2 -> cycle_invalid (env_api_error j)) as Hb.
  { intros j Hj. assert (j = 1) as -> by lia.
    eexists _, _, _, _. split; [reflexivity|]. split; reflexivity. }
  split; [reflexivity|]. split; [exact Hk|]. split; [exact Hb|]. split; [reflexivity|].
  exact (chat_error_aborts default_api_base [] default_model sample_problem
           reference_max_attempts env_api_error ∅ 2 _ eq_refl Hk Hb eq_refl).
Defined.

Lemma success_at_attempt_witness :
  truthy sample_problem = true
  /\ 1 <= 3 <= reference_max_attempts
  /\ (forall j, 1 <= j < 3 -> cycle_invalid (env_two_errors j))
  /\ chat_reply (env_two_errors 3) = Ok sample_reply
  /\ tmp_write (env_two_errors 3) = Ok tt
  /\ lean_run (env_two_errors 3) = Ok (lit "ok")
  /\ exists s',
       run_reference env_two_errors = Some (Ok (Some Succeeded), s')
       /\ attempt (vars s') = 3
       /\ length (prompts (log s')) = 3
       /\ length (lean_calls (log s')) = 3
       /\ generated_proof_code (vars s') = fst (extract sample_reply)
       /\ lean_output (vars s') = msg_valid ++ lit "ok".
Proof.
  assert (1 <= 3 <= reference_max_attempts) as Hk by (unfold reference_max_attempts; lia).
  assert (forall j, 1 <= j < 3 -> cycle_invalid (env_two_errors j)) as Hb.
  { intros j Hj. assert (j = 1 \/ j = 2) as [-> | ->] by lia;
      (eexists _, _, _, _; split; [reflexivity|]; split; reflexivity). }
  split; [reflexivity|]. split; [exact Hk|]. split; [exact Hb|].
  split; [reflexivity|]. split; [reflexivity|]. split; [reflexivity|].
  exact (success_at_attempt default_api_base [] default_model sample_problem
           reference_max_attempts env_two_errors ∅ 3 sample_reply tt (lit "ok")
           eq_refl Hk Hb eq_refl eq_refl eq_refl).
Defined.
